(** * Email parsing utilities of the OpenRelik e-mail worker

    A shallow embedding of [src/email_parsing_utils.py] together with the
    properties stated about it.  Python strings are modelled by [string]
    (one [ascii] per character), byte strings by [list ascii], Python
    exceptions by the type [exn] and the functions that may raise by a
    state-and-error monad over the output directory. *)

From Stdlib Require Import String Ascii List Bool Arith ZArith Lia.
From Stdlib Require Import DecimalString.
Import ListNotations.

Local Open Scope string_scope.
Local Open Scope list_scope.

Set Warnings "-register-all".

(** ** Characters and strings *)

Module PyStr.

Definition chr (n : nat) : ascii := ascii_of_nat n.

(** The nine characters of the class matched by the sanitizer: less-than,
    greater-than, colon, double quote, slash, backslash, bar, question
    mark and star. *)
Definition lt_c : ascii := chr 60.
Definition gt_c : ascii := chr 62.
Definition colon_c : ascii := chr 58.
Definition dquote_c : ascii := chr 34.
Definition slash_c : ascii := chr 47.
Definition backslash_c : ascii := chr 92.
Definition pipe_c : ascii := chr 124.
Definition qmark_c : ascii := chr 63.
Definition star_c : ascii := chr 42.
Definition underscore_c : ascii := chr 95.
Definition dot_c : ascii := chr 46.

Fixpoint mem (c : ascii) (l : list ascii) : bool :=
  match l with
  | [] => false
  | d :: l' => Ascii.eqb c d || mem c l'
  end.

Lemma mem_In c l : mem c l = true <-> In c l.
Proof.
  induction l as [|d l IH]; simpl.
  - split; [discriminate | tauto].
  - rewrite orb_true_iff, IH, Ascii.eqb_eq. split; intros [H|H]; auto.
Qed.

Fixpoint smap (f : ascii -> ascii) (s : string) : string :=
  match s with
  | EmptyString => EmptyString
  | String c s' => String (f c) (smap f s')
  end.

Lemma smap_length f s : String.length (smap f s) = String.length s.
Proof. induction s; simpl; congruence. Qed.

Lemma smap_get f s : forall i,
  String.get i (smap f s) = option_map f (String.get i s).
Proof.
  induction s as [|c s IH]; intros i; simpl; [reflexivity|].
  destruct i; simpl; auto.
Qed.

(** [c in s] *)
Fixpoint occurs (c : ascii) (s : string) : Prop :=
  match s with
  | EmptyString => False
  | String d s' => c = d \/ occurs c s'
  end.

Lemma occurs_smap c f s : occurs c (smap f s) -> exists d, occurs d s /\ c = f d.
Proof.
  induction s as [|d s IH]; simpl; [tauto|].
  intros [H|H].
  - exists d; auto.
  - destruct (IH H) as (e & He & Hc). exists e; auto.
Qed.

End PyStr.

(** ** [santitize_filename] *)

(** The character class of the regular expression in [santitize_filename]. *)
Definition invalid_chars : list ascii :=
  [PyStr.lt_c; PyStr.gt_c; PyStr.colon_c; PyStr.dquote_c; PyStr.slash_c;
   PyStr.backslash_c; PyStr.pipe_c; PyStr.qmark_c; PyStr.star_c].

Definition sanitize_char (c : ascii) : ascii :=
  if PyStr.mem c invalid_chars then PyStr.underscore_c else c.

(** [re.sub(cls, '_', filename)]: every match of the class is one character
    and is replaced by one underscore. *)
Definition santitize_filename (filename : string) : string :=
  PyStr.smap sanitize_char filename.

Lemma sanitize_char_valid c : PyStr.mem (sanitize_char c) invalid_chars = false.
Proof.
  unfold sanitize_char.
  destruct (PyStr.mem c invalid_chars) eqn:E; [reflexivity | exact E].
Qed.

Example santitize_filename_test1 :
  santitize_filename "file|with*bad/chars.txt" = "file_with_bad_chars.txt".
Proof. reflexivity. Qed.

Example santitize_filename_test2 :
  santitize_filename "file<name>.txt" = "file_name_.txt"
  /\ santitize_filename "file:name?.txt" = "file_name_.txt"
  /\ santitize_filename "normalfile.txt" = "normalfile.txt".
Proof. repeat split. Qed.

(** C8. For every string [s] the sanitizer returns a string of the same
    length that contains none of the nine characters of [invalid_chars],
    holds [_] at every position where [s] holds one of them and agrees with
    [s] everywhere else; the empty string is mapped to the empty string.
    The function is total, so no input makes it raise. *)
Theorem santitize_filename_spec (s : string) :
  String.length (santitize_filename s) = String.length s
  /\ (forall c, In c invalid_chars -> ~ PyStr.occurs c (santitize_filename s))
  /\ (forall i c, String.get i s = Some c ->
        String.get i (santitize_filename s)
        = Some (if PyStr.mem c invalid_chars then PyStr.underscore_c else c))
  /\ santitize_filename "" = "".
Proof.
  unfold santitize_filename. repeat split.
  - apply PyStr.smap_length.
  - intros c Hc Hocc.
    apply PyStr.occurs_smap in Hocc. destruct Hocc as (d & _ & ->).
    apply PyStr.mem_In in Hc. rewrite sanitize_char_valid in Hc. discriminate.
  - intros i c Hi. rewrite PyStr.smap_get, Hi. reflexivity.
Qed.

(** ** More string operations used by the parsing code *)

Module PyStrOps.

Definition is_upper (c : ascii) : bool :=
  let n := nat_of_ascii c in ((65 <=? n) && (n <=? 90))%nat.

(** [str.lower], which on the characters modelled here moves [A]..[Z]. *)
Definition lower_char (c : ascii) : ascii :=
  if is_upper c then ascii_of_nat (nat_of_ascii c + 32) else c.

Definition lower (s : string) : string := PyStr.smap lower_char s.

(** [str.isspace] for one character: the characters Python treats as white
    space among the first 256 code points. *)
Definition is_space (c : ascii) : bool :=
  let n := nat_of_ascii c in
  (((9 <=? n) && (n <=? 13)) || ((28 <=? n) && (n <=? 32))
   || (n =? 133) || (n =? 160))%nat.

Fixpoint lstrip (s : string) : string :=
  match s with
  | EmptyString => EmptyString
  | String c s' => if is_space c then lstrip s' else s
  end.

(** Right strip, written as one pass: a suffix made of white space only
    is dropped. *)
Fixpoint rstrip (s : string) : string :=
  match s with
  | EmptyString => EmptyString
  | String c s' =>
      match rstrip s' with
      | EmptyString => if is_space c then EmptyString else String c EmptyString
      | r => String c r
      end
  end.

(** [str.strip()] *)
Definition strip (s : string) : string := rstrip (lstrip s).

(** [s.startswith(p)] *)
Definition startswith (p s : string) : bool := String.prefix p s.

(** Python truth value of a string. *)
Definition truthy (s : string) : bool :=
  match s with EmptyString => false | _ => true end.

(** Truth value of [None]-or-string. *)
Definition otruthy (o : option string) : bool :=
  match o with None => false | Some s => truthy s end.

(** [x or d] for an optional string [x]. *)
Definition or_default (o : option string) (d : string) : string :=
  match o with
  | Some s => if truthy s then s else d
  | None => d
  end.

(** [s.split(sep)[0]] for a one-character separator. *)
Fixpoint before_first (sep : ascii) (s : string) : string :=
  match s with
  | EmptyString => EmptyString
  | String c s' => if Ascii.eqb c sep then EmptyString
                   else String c (before_first sep s')
  end.

End PyStrOps.

Example strip_lower_test :
  PyStrOps.lower (PyStrOps.strip "  Attachment; filename=x  ")
  = "attachment; filename=x".
Proof. reflexivity. Qed.

(** ** Exceptions *)

(** The exceptions the modelled operations raise.  All of them are
    subclasses of Python's [Exception]. *)
Inductive exn : Type :=
| NoSuchMailboxError   (* mailbox.NoSuchMailboxError *)
| OSError              (* open/create/write failures *)
| LookupError          (* unknown codec *)
| AttributeError       (* method call on None *)
| ValueError           (* unparseable date *)
| OverflowError.       (* date arithmetic out of range *)

Inductive result (A : Type) : Type :=
| Ok (a : A)
| Raise (e : exn).
Arguments Ok {A} a.
Arguments Raise {A} e.

Definition is_ok {A} (r : result A) : bool :=
  match r with Ok _ => true | Raise _ => false end.

(** ** Messages *)

(** What the [email] package exposes of one node of a message tree:
    the raw headers (for [get]), and the parsed values returned by
    [get_content_type()], [get_filename()] and [get_content_charset()]. *)
Record PartInfo : Type := mkInfo {
  headers : list (string * string);
  content_type : string;
  filename : option string;
  content_charset : option string
}.

(** A message (or a part of one): either a leaf with its payload bytes,
    already decoded from the transfer encoding, or a container whose
    payload is the list of its subparts. *)
Inductive Message : Type :=
| Leaf (info : PartInfo) (payload : list ascii)
| Multipart (info : PartInfo) (subparts : list Message).

Definition info_of (m : Message) : PartInfo :=
  match m with Leaf i _ => i | Multipart i _ => i end.

Definition is_multipart (m : Message) : bool :=
  match m with Leaf _ _ => false | Multipart _ _ => true end.

(** [m.get_payload(decode=True)]: [None] for a container. *)
Definition get_payload_decoded (m : Message) : option (list ascii) :=
  match m with Leaf _ b => Some b | Multipart _ _ => None end.

(** [m.walk()]: the node itself, then the subparts depth first, in
    document order. *)
Fixpoint walk (m : Message) : list Message :=
  m :: match m with
       | Leaf _ _ => []
       | Multipart _ ps => flat_map walk ps
       end.

(** [m.get(name, failobj)]: first header whose name matches, compared
    without regard to case. *)
Fixpoint header_get (name : string) (hs : list (string * string))
  : option string :=
  match hs with
  | [] => None
  | (k, v) :: hs' =>
      if String.eqb (PyStrOps.lower k) (PyStrOps.lower name) then Some v
      else header_get name hs'
  end.

Definition get (m : Message) (name : string) : option string :=
  header_get name (headers (info_of m)).

Definition get_default (m : Message) (name : string) (failobj : string)
  : string :=
  match get m name with Some v => v | None => failobj end.

Definition get_content_type (m : Message) : string := content_type (info_of m).

(** [get_content_type().split('/')[0]] *)
Definition get_content_maintype (m : Message) : string :=
  PyStrOps.before_first PyStr.slash_c (get_content_type m).

Definition get_filename (m : Message) : option string := filename (info_of m).

Definition get_content_charset (m : Message) : option string :=
  content_charset (info_of m).

(** ** Dates: the part of Python's [datetime] the normalizer uses *)

Module DateTime.

Local Open Scope Z_scope.

(** An instance of [datetime.datetime].  [tzinfo] is the fixed offset from
    UTC in seconds of an aware value, [None] for a naive one. *)
Record datetime : Type := mkDT {
  year : Z; month : Z; day : Z;
  hour : Z; minute : Z; second : Z; microsecond : Z;
  tzinfo : option Z
}.

Definition MAXORDINAL : Z := 3652059.

Definition is_leap (y : Z) : bool :=
  (y mod 4 =? 0) && (negb (y mod 100 =? 0) || (y mod 400 =? 0)).

Definition days_before_year (y : Z) : Z :=
  let p := y - 1 in p * 365 + p / 4 - p / 100 + p / 400.

Definition DAYS_IN_MONTH (m : Z) : Z :=
  match m with
  | 1 => 31 | 2 => 28 | 3 => 31 | 4 => 30 | 5 => 31 | 6 => 30
  | 7 => 31 | 8 => 31 | 9 => 30 | 10 => 31 | 11 => 30 | 12 => 31
  | _ => 0
  end.

Definition DAYS_BEFORE_MONTH (m : Z) : Z :=
  match m with
  | 1 => 0 | 2 => 31 | 3 => 59 | 4 => 90 | 5 => 120 | 6 => 151
  | 7 => 181 | 8 => 212 | 9 => 243 | 10 => 273 | 11 => 304 | 12 => 334
  | _ => 0
  end.

Definition b2z (b : bool) : Z := if b then 1 else 0.

Definition days_before_month (y m : Z) : Z :=
  DAYS_BEFORE_MONTH m + b2z ((2 <? m) && is_leap y).

(** [_ymd2ord]: the proleptic Gregorian ordinal, 1 for 0001-01-01. *)
Definition ymd2ord (y m d : Z) : Z :=
  days_before_year y + days_before_month y m + d.

(** [_ord2ymd] *)
Definition ord2ymd (n : Z) : Z * Z * Z :=
  let n := n - 1 in
  let n400 := n / 146097 in let n := n mod 146097 in
  let y := n400 * 400 + 1 in
  let n100 := n / 36524 in let n := n mod 36524 in
  let n4 := n / 1461 in let n := n mod 1461 in
  let n1 := n / 365 in let n := n mod 365 in
  let y := y + n100 * 100 + n4 * 4 + n1 in
  if (n1 =? 4) || (n100 =? 4) then (y - 1, 12, 31)
  else
    let leapyear := (n1 =? 3) && (negb (n4 =? 24) || (n100 =? 3)) in
    let m := Z.shiftr (n + 50) 5 in
    let preceding := DAYS_BEFORE_MONTH m + b2z ((2 <? m) && leapyear) in
    if n <? preceding then
      let m' := m - 1 in
      let preceding' :=
        preceding - (DAYS_IN_MONTH m' + b2z ((m' =? 2) && leapyear)) in
      (y, m', n - preceding' + 1)
    else (y, m, n - preceding + 1).

(** Seconds since the start of ordinal day 0, ignoring the offset. *)
Definition wall_seconds (d : datetime) : Z :=
  ymd2ord (year d) (month d) (day d) * 86400
  + hour d * 3600 + minute d * 60 + second d.

(** [datetime + timedelta(seconds=delta)]: the fields are renormalised and
    a result outside the years 1..9999 raises [OverflowError]. *)
Definition add_seconds (d : datetime) (delta : Z) : result datetime :=
  let total := wall_seconds d + delta in
  let days := total / 86400 in
  let secs := total mod 86400 in
  if (0 <? days) && (days <=? MAXORDINAL) then
    let '(y, m, dd) := ord2ymd days in
    Ok (mkDT y m dd (secs / 3600) ((secs mod 3600) / 60) (secs mod 60)
             (microsecond d) (tzinfo d))
  else Raise OverflowError.

Definition replace_tzinfo (d : datetime) (tz : option Z) : datetime :=
  mkDT (year d) (month d) (day d) (hour d) (minute d) (second d)
       (microsecond d) tz.

(** [d.astimezone(timezone.utc)] for an aware [d] with offset [off]:
    [utc = (self - offset).replace(tzinfo=tz)], then [tz.fromutc(utc)],
    which adds the zero offset of UTC. *)
Definition astimezone_utc (d : datetime) (off : Z) : result datetime :=
  match add_seconds d (- off) with
  | Raise e => Raise e
  | Ok u => add_seconds (replace_tzinfo u (Some 0)) 0
  end.

(** Decimal printing with zero padding, as the format [%0wd] does for a
    number that is not negative. *)
Definition dec (n : Z) : string := NilZero.string_of_uint (N.to_uint (Z.to_N n)).

Fixpoint zeros (k : nat) : string :=
  match k with O => EmptyString | S k' => String (ascii_of_nat 48) (zeros k') end.

Definition pad (w : nat) (n : Z) : string :=
  let s := dec n in (zeros (w - String.length s) ++ s)%string.

(** [_format_offset] *)
Definition format_offset (off : option Z) : string :=
  match off with
  | None => EmptyString
  | Some o =>
      let sign := if o <? 0 then "-"%string else "+"%string in
      let a := Z.abs o in
      let hh := a / 3600 in
      let mm := (a mod 3600) / 60 in
      let ss := a mod 60 in
      let tail := if ss =? 0 then EmptyString else (":" ++ pad 2 ss)%string in
      (sign ++ pad 2 hh ++ ":" ++ pad 2 mm ++ tail)%string
  end.

(** [d.isoformat()] *)
Definition isoformat (d : datetime) : string :=
  let us := if microsecond d =? 0 then EmptyString
            else ("." ++ pad 6 (microsecond d))%string in
  (pad 4 (year d) ++ "-" ++ pad 2 (month d) ++ "-" ++ pad 2 (day d) ++ "T"
   ++ pad 2 (hour d) ++ ":" ++ pad 2 (minute d) ++ ":" ++ pad 2 (second d)
   ++ us ++ format_offset (tzinfo d))%string.

End DateTime.

Example isoformat_test :
  DateTime.isoformat (DateTime.mkDT 2024 7 15 14 30 0 0 None) = "2024-07-15T14:30:00".
Proof. vm_compute. reflexivity. Qed.

Example astimezone_test :
  DateTime.astimezone_utc (DateTime.mkDT 2024 7 15 10 30 0 0 (Some (-14400)%Z)) (-14400)
  = Ok (DateTime.mkDT 2024 7 15 14 30 0 0 (Some 0%Z)).
Proof. vm_compute. reflexivity. Qed.

Example astimezone_overflow_test :
  DateTime.astimezone_utc (DateTime.mkDT 9999 12 31 23 59 59 0 (Some (-3600)%Z)) (-3600)
  = Raise OverflowError.
Proof. vm_compute. reflexivity. Qed.

(** ** Exception classes and [except] clauses *)

Inductive pyclass : Type :=
| cBaseException | cException | cOSError | cLookupError | cAttributeError
| cValueError | cArithmeticError | cOverflowError
| cMailboxError | cNoSuchMailboxError.

Definition class_of (e : exn) : pyclass :=
  match e with
  | NoSuchMailboxError => cNoSuchMailboxError
  | OSError => cOSError
  | LookupError => cLookupError
  | AttributeError => cAttributeError
  | ValueError => cValueError
  | OverflowError => cOverflowError
  end.

(** The direct base class. *)
Definition base_class (c : pyclass) : option pyclass :=
  match c with
  | cBaseException => None
  | cException => Some cBaseException
  | cOSError | cLookupError | cAttributeError | cValueError
  | cArithmeticError | cMailboxError => Some cException
  | cOverflowError => Some cArithmeticError
  | cNoSuchMailboxError => Some cMailboxError
  end.

Definition pyclass_eqb (c d : pyclass) : bool :=
  match c, d with
  | cBaseException, cBaseException | cException, cException
  | cOSError, cOSError | cLookupError, cLookupError
  | cAttributeError, cAttributeError | cValueError, cValueError
  | cArithmeticError, cArithmeticError | cOverflowError, cOverflowError
  | cMailboxError, cMailboxError
  | cNoSuchMailboxError, cNoSuchMailboxError => true
  | _, _ => false
  end.

Fixpoint issubclass (fuel : nat) (c d : pyclass) : bool :=
  pyclass_eqb c d ||
  match fuel with
  | O => false
  | S fuel' =>
      match base_class c with
      | Some b => issubclass fuel' b d
      | None => false
      end
  end.

(** [isinstance(e, d)]; the hierarchy above has depth four. *)
Definition isinstance (e : exn) (d : pyclass) : bool :=
  issubclass 4 (class_of e) d.

Lemma isinstance_Exception (e : exn) : isinstance e cException = true.
Proof. destruct e; reflexivity. Qed.

(** ** The output directory *)

(** The descriptor of a file allocated by the output-file collaborator
    [create_output_file] (an external package): what was asked for, and the
    identifier and path the collaborator chose. *)
Record OutputFile : Type := mkOutputFile {
  of_uuid : nat;
  of_display_name : string;
  of_extension : string;
  of_data_type : string;
  of_path : string
}.

(** The part of the world the extraction writes to: how many files have
    been allocated, the files written so far (newest first) and, for each
    allocation, whether opening or writing that file fails. *)
Record World : Type := mkWorld {
  next_uuid : nat;
  disk : list (string * list ascii);
  write_fails : nat -> bool
}.

Definition nat_dec (n : nat) : string :=
  NilZero.string_of_uint (Nat.to_uint n).

(** [create_output_file(output_path, display_name, extension, data_type)] *)
Definition create_output_file (w : World)
  (output_path display_name extension data_type : string)
  : OutputFile * World :=
  let id := next_uuid w in
  (mkOutputFile id display_name extension data_type
     (output_path ++ "/" ++ nat_dec id ++ "." ++ extension),
   mkWorld (S id) (disk w) (write_fails w)).

(** [with open(f.path, 'wb') as out_f: out_f.write(data)] *)
Definition write_binary (w : World) (f : OutputFile) (data : list ascii)
  : result unit * World :=
  if write_fails w (of_uuid f) then (Raise OSError, w)
  else (Ok tt, mkWorld (next_uuid w) ((of_path f, data) :: disk w) (write_fails w)).

(** ** [os.path.splitext] *)

Module OsPath.

Local Open Scope Z_scope.

Fixpoint rfind_from (c : ascii) (s : string) (i best : Z) : Z :=
  match s with
  | EmptyString => best
  | String d s' => rfind_from c s' (i + 1) (if Ascii.eqb d c then i else best)
  end.

(** [s.rfind(c)], [-1] when [c] does not occur. *)
Definition rfind (c : ascii) (s : string) : Z := rfind_from c s 0 (-1).

(** [s[a:b]] for [0 <= a]. *)
Definition slice (s : string) (a b : Z) : string :=
  String.substring (Z.to_nat a) (Z.to_nat (b - a)) s.

Definition slice_from (s : string) (a : Z) : string :=
  String.substring (Z.to_nat a) (String.length s - Z.to_nat a) s.

Fixpoint all_dots (s : string) : bool :=
  match s with
  | EmptyString => true
  | String c s' => Ascii.eqb c PyStr.dot_c && all_dots s'
  end.

(** [genericpath._splitext(p, '/', None, '.')]: split at the last dot of the
    last path component, unless only dots precede it there. *)
Definition splitext (p : string) : string * string :=
  let sepIndex := rfind PyStr.slash_c p in
  let dotIndex := rfind PyStr.dot_c p in
  if sepIndex <? dotIndex then
    if all_dots (slice p (sepIndex + 1) dotIndex) then (p, EmptyString)
    else (slice p 0 dotIndex, slice_from p dotIndex)
  else (p, EmptyString).

(** [s[1:]] *)
Definition drop_first (s : string) : string :=
  match s with EmptyString => EmptyString | String _ s' => s' end.

End OsPath.

Example splitext_test :
  OsPath.splitext "report.final.txt" = ("report.final", ".txt")
  /\ OsPath.splitext ".bashrc" = (".bashrc", "")
  /\ OsPath.splitext "dir.d/name" = ("dir.d/name", "")
  /\ OsPath.splitext "noext" = ("noext", "").
Proof. repeat split. Qed.

(** ** Python values stored in a metadata record *)

Inductive pyval : Type :=
| PNone
| PStr (s : string)
| PList (l : list string).

Definition of_opt (o : option string) : pyval :=
  match o with None => PNone | Some s => PStr s end.

(** A [dict] with string keys, in insertion order. *)
Definition PyDict : Type := list (string * pyval).

Fixpoint dict_get (d : PyDict) (key : string) : option pyval :=
  match d with
  | [] => None
  | (k, v) :: d' => if String.eqb k key then Some v else dict_get d' key
  end.

(** The class of the object handed to the attachment extractor. *)
Inductive MessageClass : Type :=
| EmailMessage      (* email.message.EmailMessage, from the .eml parser *)
| MboxMessage       (* mailbox.mboxMessage, from iterating a mailbox *)
| OtherObject.      (* anything else *)

Definition supported_class (c : MessageClass) : bool :=
  match c with EmailMessage | MboxMessage => true | OtherObject => false end.

(** The state of a loop that was left either normally or by an exception;
    in both cases the local variables keep their last values. *)
Inductive outcome (S : Type) : Type :=
| Done (s : S)
| Raised (e : exn) (s : S).
Arguments Done {S} s.
Arguments Raised {S} e s.

Section Parsing.

(** The library functions the code calls and the files it reads. *)

(** [payload.decode(charset, errors="replace")] *)
Variable bytes_decode : string -> list ascii -> result string.
(** [email.utils.parsedate_to_datetime] *)
Variable parsedate_to_datetime : string -> result DateTime.datetime.
(** [str(abs(hash(str(message))))[:8]] *)
Variable message_hash : Message -> string.
(** [mailbox.mbox(file_path)] and the messages its iteration yields *)
Variable mailbox_mbox : string -> result (list Message).
(** [open(file_path)] followed by [email.message_from_file] *)
Variable message_from_file : string -> result Message.

(** [try: body except cls: handler]: an exception that is not an instance
    of [cls] propagates. *)
Definition try_except {A} (body : result A) (cls : pyclass)
  (handler : exn -> result A) : result A :=
  match body with
  | Ok a => Ok a
  | Raise e => if isinstance e cls then handler e else Raise e
  end.

(** *** [convert_timestamp_to_utc] *)

Definition convert_timestamp_to_utc (date_str : option string)
  : result (option string) :=
  match date_str with
  | None => Ok None
  | Some s =>
      if negb (PyStrOps.truthy s) then Ok None
      else
        try_except
          (match parsedate_to_datetime s with
           | Raise e => Raise e
           | Ok date =>
               match DateTime.tzinfo date with
               | Some off =>
                   match DateTime.astimezone_utc date off with
                   | Raise e => Raise e
                   | Ok u => Ok (Some (DateTime.isoformat u))
                   end
               | None => Ok (Some (DateTime.isoformat date))
               end
           end)
          cException (fun _ => Ok None)
  end.

(** *** [get_message_body] *)

(** [part.get_payload(decode=True).decode(charset or "utf-8",
    errors="replace")]; on a container the payload is [None] and the
    method call raises. *)
Definition decode_payload (part : Message) : result string :=
  match get_payload_decoded part with
  | None => Raise AttributeError
  | Some b =>
      bytes_decode (PyStrOps.or_default (get_content_charset part) "utf-8") b
  end.

Definition is_text_plain (part : Message) : bool :=
  String.eqb (get_content_type part) "text/plain".

(** The [for part in message.walk()] loop of the multipart branch. *)
Fixpoint body_loop (parts : list Message) : result string :=
  match parts with
  | [] => Ok ""
  | part :: rest =>
      if is_text_plain part then decode_payload part else body_loop rest
  end.

Definition get_message_body (message : Message) : result string :=
  if is_multipart message then body_loop (walk message)
  else decode_payload message.

(** *** [extract_message_metadata] *)

Definition extract_message_metadata (attachments : list string)
  (message : Message) : result PyDict :=
  match convert_timestamp_to_utc (get message "Date") with
  | Raise e => Raise e
  | Ok timestamp =>
  match get_message_body message with
  | Raise e => Raise e
  | Ok body =>
      Ok [ ("Timestamp", of_opt timestamp);
           ("Timestamp_desc", PStr "Email received");
           ("Message", PStr "Email message");
           ("To", of_opt (get message "To"));
           ("From", of_opt (get message "From"));
           ("Bcc", of_opt (get message "Bcc"));
           ("Cc", of_opt (get message "Cc"));
           ("Subject", of_opt (get message "Subject"));
           ("Message-ID", PStr (get_default message "Message-ID" ""));
           ("Date", of_opt (get message "Date"));
           ("Content-Type", PStr (get_content_type message));
           ("Attachments", PList attachments);
           ("User-Agent", of_opt (get message "User-Agent"));
           ("Body", PStr body) ]
  end
  end.

(** *** [extract_message_attachments] *)

(** The test that selects inline and attached files:
    [(disposition and disposition.strip().lower().startswith(("attachment",
    "inline"))) or (not disposition and maintype != 'text' and filename)]. *)
Definition should_extract (disposition : option string)
  (maintype filename : string) : bool :=
  (PyStrOps.otruthy disposition
   && match disposition with
      | Some d =>
          let d' := PyStrOps.lower (PyStrOps.strip d) in
          PyStrOps.startswith "attachment" d' || PyStrOps.startswith "inline" d'
      | None => false
      end)
  || (negb (PyStrOps.otruthy disposition)
      && negb (String.eqb maintype "text")
      && PyStrOps.truthy filename).

(** The message identifier used in display names. *)
Definition message_id_of (message : Message) : string :=
  let message_id := santitize_filename (get_default message "Message-ID" "") in
  if negb (PyStrOps.truthy message_id)
  then ("unknown_message_" ++ message_hash message)%string
  else message_id.

(** The [try] block that saves one part: allocate the output file, write
    the payload, and yield the descriptor. *)
Definition save_part (output_path message_id filename : string)
  (data : list ascii) (w : World) : result OutputFile * World :=
  let '(base, ext) := OsPath.splitext filename in
  let processed_base : string := base in
  let processed_ext := OsPath.drop_first ext in
  let attachment_file_display_name :=
    (processed_base ++ "." ++ message_id)%string in
  let '(output_file, w1) :=
    create_output_file w output_path attachment_file_display_name
      processed_ext processed_ext in
  match write_binary w1 output_file data with
  | (Ok _, w2) => (Ok output_file, w2)
  | (Raise e, w2) => (Raise e, w2)
  end.

(** The body of [for part in message.walk()], over the parts still to be
    visited, with the list [extracted_files] built so far. *)
Fixpoint extract_loop (parts : list Message) (output_path message_id : string)
  (extracted_files : list OutputFile) (w : World)
  : result (list OutputFile) * World :=
  match parts with
  | [] => (Ok extracted_files, w)
  | Multipart _ _ :: rest =>
      (* if part.is_multipart(): continue *)
      extract_loop rest output_path message_id extracted_files w
  | (Leaf _ data as part) :: rest =>
      match get_filename part with
      | Some filename =>
          if PyStrOps.truthy filename then
            let disposition := get part "Content-Disposition" in
            let maintype := get_content_maintype part in
            if should_extract disposition maintype filename then
              match save_part output_path message_id filename data w with
              | (Ok output_file, w') =>
                  extract_loop rest output_path message_id
                    (extracted_files ++ [output_file]) w'
              | (Raise e, w') =>
                  if isinstance e cException
                  then extract_loop rest output_path message_id extracted_files w'
                  else (Raise e, w')
              end
            else extract_loop rest output_path message_id extracted_files w
          else extract_loop rest output_path message_id extracted_files w
      | None => extract_loop rest output_path message_id extracted_files w
      end
  end.

Definition extract_message_attachments (cls : MessageClass)
  (message : Message) (output_path : string) (w : World)
  : result (list OutputFile) * World :=
  if supported_class cls then
    extract_loop (walk message) output_path (message_id_of message) [] w
  else (Ok [], w).

(** *** [parse_eml_to_dict_and_extract_attachments] *)

(** [[part.get_filename() for part in msg.walk() if part.get_filename()]] *)
Fixpoint filenames_of (parts : list Message) : list string :=
  match parts with
  | [] => []
  | part :: rest =>
      match get_filename part with
      | Some f => if PyStrOps.truthy f then f :: filenames_of rest
                  else filenames_of rest
      | None => filenames_of rest
      end
  end.

Definition parse_eml_to_dict_and_extract_attachments
  (file_path output_path : string) (w : World)
  : result (list OutputFile * PyDict) * World :=
  match message_from_file file_path with
  | Raise e => (Raise e, w)
  | Ok msg =>
      match extract_message_attachments EmailMessage msg output_path w with
      | (Raise e, w1) => (Raise e, w1)
      | (Ok message_attachments, w1) =>
          let attachment_file_paths := [] ++ message_attachments in
          let attachments := filenames_of (walk msg) in
          match extract_message_metadata attachments msg with
          | Raise e => (Raise e, w1)
          | Ok email_metadata => (Ok (attachment_file_paths, email_metadata), w1)
          end
      end
  end.

(** *** [parse_mbox_to_dict_and_extract_attachments] *)

(** The inner loop [for part in message.walk()]: for every part that has a
    file name the whole message is handed to the attachment extractor and
    the descriptors are added to [attachment_file_paths]. *)
Fixpoint mbox_parts_loop (parts : list Message) (message : Message)
  (output_path : string) (attachment_file_paths : list OutputFile) (w : World)
  : outcome (list OutputFile) * World :=
  match parts with
  | [] => (Done attachment_file_paths, w)
  | part :: rest =>
      if PyStrOps.otruthy (get_filename part) then
        match extract_message_attachments MboxMessage message output_path w with
        | (Ok message_content, w') =>
            mbox_parts_loop rest message output_path
              (attachment_file_paths ++ message_content) w'
        | (Raise e, w') => (Raised e attachment_file_paths, w')
        end
      else mbox_parts_loop rest message output_path attachment_file_paths w
  end.

(** The outer loop [for message in mbox], on the two local variables
    [attachment_file_paths] and [messages_metadata]. *)
Fixpoint mbox_loop (messages : list Message) (output_path : string)
  (attachment_file_paths : list OutputFile) (messages_metadata : list PyDict)
  (w : World) : outcome (list OutputFile * list PyDict) * World :=
  match messages with
  | [] => (Done (attachment_file_paths, messages_metadata), w)
  | message :: rest =>
      let attachment_filenames : list string := [] in
      let attachment_file_paths : list OutputFile := [] in
      match mbox_parts_loop (walk message) message output_path
              attachment_file_paths w with
      | (Raised e paths, w') => (Raised e (paths, messages_metadata), w')
      | (Done paths, w') =>
          match extract_message_metadata attachment_filenames message with
          | Raise e => (Raised e (paths, messages_metadata), w')
          | Ok record =>
              mbox_loop rest output_path paths (messages_metadata ++ [record]) w'
          end
      end
  end.

Definition parse_mbox_to_dict_and_extract_attachments
  (file_path output_path : string) (w : World)
  : result (list OutputFile * list PyDict) * World :=
  let attachment_file_paths : list OutputFile := [] in
  let messages_metadata : list PyDict := [] in
  let '(o, w') :=
    match mailbox_mbox file_path with
    | Raise e => (Raised e (attachment_file_paths, messages_metadata), w)
    | Ok mbox =>
        mbox_loop mbox output_path attachment_file_paths messages_metadata w
    end in
  match o with
  | Done locals => (Ok locals, w')
  | Raised e locals =>
      if isinstance e cNoSuchMailboxError then (Ok locals, w')
      else if isinstance e cException then (Ok locals, w')
      else (Raise e, w')
  end.

End Parsing.

Arguments convert_timestamp_to_utc parsedate_to_datetime date_str : assert.
Arguments get_message_body bytes_decode message : assert.
Arguments decode_payload bytes_decode part : assert.
Arguments body_loop bytes_decode parts : assert.

(** ** A concrete environment for running the model *)

Module Demo.

Definition b7 (c : ascii) : ascii :=
  if (nat_of_ascii c <? 128)%nat then c else "?"%char.

Definition one_of (s : string) (l : list string) : bool :=
  existsb (String.eqb s) l.

(** A codec registry with the 7-bit codecs and Latin-1.  On 7-bit data it
    agrees with Python; a byte above 127 given to a 7-bit codec is shown as
    a question mark, which stands for the replacement character.  Every
    other name is unknown, as [x-unknown] is to Python. *)
Definition bytes_decode (charset : string) (b : list ascii) : result string :=
  if one_of charset ["utf-8"; "us-ascii"; "ascii"]
  then Ok (string_of_list_ascii (map b7 b))
  else if one_of charset ["latin-1"; "iso-8859-1"]
  then Ok (string_of_list_ascii b)
  else Raise LookupError.

(** The dates of the test suite, as [parsedate_to_datetime] reads them. *)
Definition parsedate_to_datetime (s : string) : result DateTime.datetime :=
  if String.eqb s "Mon, 15 Jul 2024 10:30:00 -0400"
  then Ok (DateTime.mkDT 2024 7 15 10 30 0 0 (Some (-14400)%Z))
  else if String.eqb s "Mon, 15 Jul 2024 14:30:00 +0000"
  then Ok (DateTime.mkDT 2024 7 15 14 30 0 0 (Some 0%Z))
  else if String.eqb s "Mon, 15 Jul 2024 14:30:00"
  then Ok (DateTime.mkDT 2024 7 15 14 30 0 0 None)
  else if String.eqb s "Fri, 31 Dec 9999 23:59:59 -0100"
  then Ok (DateTime.mkDT 9999 12 31 23 59 59 0 (Some (-3600)%Z))
  else Raise ValueError.

Definition message_hash (_ : Message) : string := "12345678".

Definition bytes (s : string) : list ascii := list_ascii_of_string s.

Definition text_part (charset : string) (body : string) : Message :=
  Leaf (mkInfo [("Content-Type", ("text/plain; charset=" ++ charset)%string)]
               "text/plain" None (Some charset))
       (bytes body).

Definition html_part (body : string) : Message :=
  Leaf (mkInfo [("Content-Type", "text/html; charset=utf-8")]
               "text/html" None (Some "utf-8"))
       (bytes body).

(** A part sent as an attachment, with its [Content-Disposition] header. *)
Definition attachment (name disposition : string) (data : string) : Message :=
  Leaf (mkInfo [("Content-Type", "application/octet-stream");
                ("Content-Disposition", disposition)]
               "application/octet-stream" (Some name) None)
       (bytes data).

Definition multipart (subtype : string) (hs : list (string * string))
  (parts : list Message) : Message :=
  Multipart (mkInfo (hs ++ [("Content-Type", ("multipart/" ++ subtype)%string)])
                    ("multipart/" ++ subtype) None None)
            parts.

(** An empty output directory in which every write succeeds. *)
Definition empty_world : World := mkWorld 0 [] (fun _ => false).

End Demo.

Example get_message_body_plain :
  get_message_body Demo.bytes_decode (Demo.text_part "utf-8" "Hello world!")
  = Ok "Hello world!".
Proof. reflexivity. Qed.

Example get_message_body_alternative :
  get_message_body Demo.bytes_decode
    (Demo.multipart "alternative" []
       [Demo.text_part "utf-8" "Plain part"; Demo.html_part "<b>HTML part</b>"])
  = Ok "Plain part".
Proof. reflexivity. Qed.

Example get_message_body_html_only :
  get_message_body Demo.bytes_decode
    (Demo.multipart "alternative" [] [Demo.html_part "<b>HTML only</b>"])
  = Ok "".
Proof. reflexivity. Qed.

(** ** The body extractor *)

Lemma body_loop_find bytes_decode (parts : list Message) :
  body_loop bytes_decode parts
  = match find is_text_plain parts with
    | Some part => decode_payload bytes_decode part
    | None => Ok ""
    end.
Proof.
  induction parts as [|p parts IH]; simpl; [reflexivity|].
  destruct (is_text_plain p); [reflexivity | exact IH].
Qed.




(** ** Facts about the date arithmetic *)

Module DateTimeFacts.

Import DateTime.
Local Open Scope Z_scope.

Fixpoint all_from (p : Z -> bool) (start : Z) (count : nat) : bool :=
  match count with
  | O => true
  | S c => p start && all_from p (start + 1) c
  end.

Lemma all_from_spec p : forall count start,
  all_from p start count = true ->
  forall r, start <= r < start + Z.of_nat count -> p r = true.
Proof.
  induction count as [|c IH]; intros start H r Hr.
  - lia.
  - simpl in H. apply andb_true_iff in H. destruct H as [H0 H1].
    destruct (Z.eq_dec r start) as [->|Hne]; [exact H0|].
    apply (IH (start + 1) H1). lia.
Qed.

(** The month and day of the day numbered [n] (from 0) of a year. *)
Definition month_day (n : Z) (leapyear : bool) : Z * Z :=
  let m := Z.shiftr (n + 50) 5 in
  let preceding := DAYS_BEFORE_MONTH m + b2z ((2 <? m) && leapyear) in
  if n <? preceding then
    let m' := m - 1 in
    let preceding' :=
      preceding - (DAYS_IN_MONTH m' + b2z ((m' =? 2) && leapyear)) in
    (m', n - preceding' + 1)
  else (m, n - preceding + 1).

Definition month_day_ok (leapyear : bool) (n : Z) : bool :=
  let '(m, d) := month_day n leapyear in
  (DAYS_BEFORE_MONTH m + b2z ((2 <? m) && leapyear) + d =? n + 1)
  && (1 <=? m) && (m <=? 12) && (1 <=? d) && (d <=? 31).

Lemma month_day_check :
  all_from (month_day_ok false) 0 365 = true
  /\ all_from (month_day_ok true) 0 365 = true.
Proof. split; vm_compute; reflexivity. Qed.

Lemma month_day_spec leapyear n :
  0 <= n < 365 ->
  let '(m, d) := month_day n leapyear in
  DAYS_BEFORE_MONTH m + b2z ((2 <? m) && leapyear) + d = n + 1
  /\ 1 <= m <= 12 /\ 1 <= d <= 31.
Proof.
  intros Hn.
  assert (H : month_day_ok leapyear n = true).
  { destruct leapyear.
    - apply (all_from_spec _ _ _ (proj2 month_day_check)). lia.
    - apply (all_from_spec _ _ _ (proj1 month_day_check)). lia. }
  unfold month_day_ok in H. destruct (month_day n leapyear) as [m d].
  rewrite !andb_true_iff in H. lia.
Qed.

Lemma ord2ymd_eq n :
  ord2ymd n =
  let n0 := n - 1 in
  let n400 := n0 / 146097 in let r1 := n0 mod 146097 in
  let n100 := r1 / 36524 in let r2 := r1 mod 36524 in
  let n4 := r2 / 1461 in let r3 := r2 mod 1461 in
  let n1 := r3 / 365 in let r4 := r3 mod 365 in
  let y := n400 * 400 + 1 + n100 * 100 + n4 * 4 + n1 in
  if (n1 =? 4) || (n100 =? 4) then (y - 1, 12, 31)
  else
    let leapyear := (n1 =? 3) && (negb (n4 =? 24) || (n100 =? 3)) in
    let '(m, d) := month_day r4 leapyear in (y, m, d).
Proof.
  unfold ord2ymd, month_day. cbv zeta.
  destruct ((_ =? 4) || (_ =? 4)); [reflexivity|].
  destruct (_ <? _); reflexivity.
Qed.


Lemma year_parts (k a b c : Z) :
  0 <= k -> 0 <= a <= 3 -> 0 <= b <= 24 -> 0 <= c <= 3 ->
  let y := 400 * k + 100 * a + 4 * b + c + 1 in
  days_before_year y = 146097 * k + 36524 * a + 1461 * b + 365 * c
  /\ is_leap y = (c =? 3) && (negb (b =? 24) || (a =? 3)).
Proof.
  intros Hk Ha Hb Hc y. unfold days_before_year, is_leap. split.
  - unfold y. Z.div_mod_to_equations. lia.
  - assert (H4 : (y mod 4 =? 0) = (c =? 3)).
    { unfold y. destruct (Z.eqb_spec c 3); destruct (Z.eqb_spec ((400 * k + 100 * a + 4 * b + c + 1) mod 4) 0);
        try reflexivity; exfalso; Z.div_mod_to_equations; lia. }
    assert (H100 : (y mod 100 =? 0) = (b =? 24) && (c =? 3)).
    { unfold y. destruct (Z.eqb_spec c 3); destruct (Z.eqb_spec b 24);
        destruct (Z.eqb_spec ((400 * k + 100 * a + 4 * b + c + 1) mod 100) 0);
        try reflexivity; exfalso; Z.div_mod_to_equations; lia. }
    assert (H400 : (y mod 400 =? 0) = (a =? 3) && (b =? 24) && (c =? 3)).
    { unfold y. destruct (Z.eqb_spec c 3); destruct (Z.eqb_spec b 24);
        destruct (Z.eqb_spec a 3); destruct (Z.eqb_spec ((400 * k + 100 * a + 4 * b + c + 1) mod 400) 0);
        try reflexivity; exfalso; Z.div_mod_to_equations; lia. }
    rewrite H4, H100, H400.
    destruct (c =? 3), (b =? 24), (a =? 3); reflexivity.
Qed.

Lemma ord2ymd_roundtrip n :
  1 <= n <= MAXORDINAL ->
  let '(y, m, d) := ord2ymd n in
  ymd2ord y m d = n /\ 1 <= m <= 12 /\ 1 <= d <= 31.
Proof.
  intros Hn. unfold MAXORDINAL in Hn. rewrite ord2ymd_eq. cbv zeta.
  set (n0 := n - 1).
  set (n400 := n0 / 146097). set (r1 := n0 mod 146097).
  set (n100 := r1 / 36524). set (r2 := r1 mod 36524).
  set (n4 := r2 / 1461). set (r3 := r2 mod 1461).
  set (n1 := r3 / 365). set (r4 := r3 mod 365).
  assert (E1 : n0 = 146097 * n400 + r1 /\ 0 <= r1 < 146097)
    by (split; [apply Z.div_mod; lia | apply Z.mod_pos_bound; lia]).
  assert (E2 : r1 = 36524 * n100 + r2 /\ 0 <= r2 < 36524)
    by (split; [apply Z.div_mod; lia | apply Z.mod_pos_bound; lia]).
  assert (E3 : r2 = 1461 * n4 + r3 /\ 0 <= r3 < 1461)
    by (split; [apply Z.div_mod; lia | apply Z.mod_pos_bound; lia]).
  assert (E4 : r3 = 365 * n1 + r4 /\ 0 <= r4 < 365)
    by (split; [apply Z.div_mod; lia | apply Z.mod_pos_bound; lia]).
  clearbody n400 r1 n100 r2 n4 r3 n1 r4.
  assert (Hn0 : 0 <= n0) by (unfold n0; lia).
  assert (B400 : 0 <= n400) by lia.
  assert (B100 : 0 <= n100 <= 4) by lia.
  assert (B4 : 0 <= n4 <= 24) by lia.
  assert (B1 : 0 <= n1 <= 4) by lia.
  destruct (Z.eqb_spec n1 4) as [H14|H14]; simpl orb.
  - (* the last day of a leap year inside a century *)
    assert (Hb : n4 <= 23) by lia. assert (Ha : n100 <= 3) by lia.
    destruct (year_parts n400 n100 n4 3) as [Hd Hl]; try lia.
    cbv zeta in Hd, Hl.
    replace (n400 * 400 + 1 + n100 * 100 + n4 * 4 + n1 - 1)
      with (400 * n400 + 100 * n100 + 4 * n4 + 3 + 1) by lia.
    unfold ymd2ord, days_before_month. rewrite Hd, Hl.
    destruct (Z.eqb_spec n4 24); [lia|]. rewrite !Z.eqb_refl. change (2 <? 12) with true.
    cbn [andb orb negb b2z DAYS_BEFORE_MONTH]. unfold n0 in *. lia.
  - destruct (Z.eqb_spec n100 4) as [H1004|H1004].
    + (* the last day of a 400-year cycle *)
      destruct (year_parts n400 3 24 3) as [Hd Hl]; try lia.
      cbv zeta in Hd, Hl.
      replace (n400 * 400 + 1 + n100 * 100 + n4 * 4 + n1 - 1)
        with (400 * n400 + 100 * 3 + 4 * 24 + 3 + 1) by lia.
      unfold ymd2ord, days_before_month. rewrite Hd, Hl.
      rewrite !Z.eqb_refl. change (2 <? 12) with true.
      cbn [andb orb negb b2z DAYS_BEFORE_MONTH]. unfold n0 in *. lia.
    + destruct (year_parts n400 n100 n4 n1) as [Hd Hl]; try lia.
      cbv zeta in Hd, Hl.
      pose proof (month_day_spec ((n1 =? 3) && (negb (n4 =? 24) || (n100 =? 3))) r4
                    (proj2 E4)) as Hm.
      destruct (month_day r4 _) as [m d].
      replace (n400 * 400 + 1 + n100 * 100 + n4 * 4 + n1)
        with (400 * n400 + 100 * n100 + 4 * n4 + n1 + 1) by lia.
      unfold ymd2ord, days_before_month. rewrite Hd, Hl.
      unfold n0 in *. lia.
Qed.

Lemma add_seconds_ok d delta u :
  add_seconds d delta = Ok u ->
  wall_seconds u = wall_seconds d + delta
  /\ tzinfo u = tzinfo d /\ microsecond u = microsecond d.
Proof.
  unfold add_seconds.
  set (total := wall_seconds d + delta).
  destruct ((0 <? total / 86400) && (total / 86400 <=? MAXORDINAL)) eqn:Hr;
    [|discriminate].
  apply andb_true_iff in Hr. destruct Hr as [H0 H1].
  apply Z.ltb_lt in H0. apply Z.leb_le in H1.
  assert (Hrange : 1 <= total / 86400 <= MAXORDINAL) by (split; [lia | exact H1]).
  pose proof (ord2ymd_roundtrip (total / 86400) Hrange) as Hrt.
  destruct (ord2ymd (total / 86400)) as [[y m] dd].
  intros [= <-]. unfold wall_seconds at 1.
  cbn [year month day hour minute second microsecond tzinfo].
  destruct Hrt as [-> _]. repeat split.
  pose proof (Z.div_mod total 86400 ltac:(lia)) as E.
  pose proof (Z.mod_pos_bound total 86400 ltac:(lia)) as B.
  set (secs := total mod 86400) in *. set (days := total / 86400) in *.
  clearbody secs days.
  Z.div_mod_to_equations; lia.
Qed.

Lemma add_seconds_in_range d delta :
  0 < (wall_seconds d + delta) / 86400 <= MAXORDINAL ->
  exists u, add_seconds d delta = Ok u.
Proof.
  intros [H0 H1]. unfold add_seconds.
  apply Z.ltb_lt in H0. apply Z.leb_le in H1. rewrite H0, H1. cbn [andb].
  destruct (ord2ymd _) as [[y m] dd]. eexists. reflexivity.
Qed.

Lemma add_seconds_out_of_range d delta :
  ~ (0 < (wall_seconds d + delta) / 86400 <= MAXORDINAL) ->
  add_seconds d delta = Raise OverflowError.
Proof.
  intros H. unfold add_seconds.
  destruct (Z.ltb_spec 0 ((wall_seconds d + delta) / 86400));
    destruct (Z.leb_spec ((wall_seconds d + delta) / 86400) MAXORDINAL);
    cbn [andb]; try reflexivity.
  exfalso. apply H. lia.
Qed.

(** The UTC day of an aware value lies in the supported range. *)
Definition utc_in_range (d : datetime) (off : Z) : Prop :=
  0 < (wall_seconds d - off) / 86400 <= MAXORDINAL.

Lemma astimezone_utc_in_range d off :
  utc_in_range d off ->
  exists u, astimezone_utc d off = Ok u
            /\ tzinfo u = Some 0
            /\ wall_seconds u = wall_seconds d - off.
Proof.
  intros Hr. unfold astimezone_utc, utc_in_range in *.
  destruct (add_seconds_in_range d (- off)) as [u1 H1].
  { replace (wall_seconds d + - off) with (wall_seconds d - off) by lia. exact Hr. }
  rewrite H1. apply add_seconds_ok in H1. destruct H1 as (Hw & _ & _).
  assert (Hw' : wall_seconds (replace_tzinfo u1 (Some 0)) = wall_seconds d - off).
  { unfold wall_seconds in *.
    cbn [replace_tzinfo year month day hour minute second]. lia. }
  destruct (add_seconds_in_range (replace_tzinfo u1 (Some 0)) 0) as [u H2].
  { rewrite Hw'. replace (wall_seconds d - off + 0) with (wall_seconds d - off) by lia.
    exact Hr. }
  exists u. split; [exact H2|].
  apply add_seconds_ok in H2. destruct H2 as (Hw2 & Htz & _).
  split; [rewrite Htz; reflexivity | lia].
Qed.

Lemma astimezone_utc_out_of_range d off :
  ~ utc_in_range d off -> astimezone_utc d off = Raise OverflowError.
Proof.
  intros Hr. unfold astimezone_utc.
  rewrite add_seconds_out_of_range; [reflexivity|].
  replace (wall_seconds d + - off) with (wall_seconds d - off) by lia. exact Hr.
Qed.

End DateTimeFacts.

(** ** The timestamp normalizer *)

Example convert_timestamp_tests :
  convert_timestamp_to_utc Demo.parsedate_to_datetime
    (Some "Mon, 15 Jul 2024 10:30:00 -0400")
  = Ok (Some "2024-07-15T14:30:00+00:00")
  /\ convert_timestamp_to_utc Demo.parsedate_to_datetime
       (Some "Mon, 15 Jul 2024 14:30:00 +0000")
     = Ok (Some "2024-07-15T14:30:00+00:00")
  /\ convert_timestamp_to_utc Demo.parsedate_to_datetime
       (Some "Mon, 15 Jul 2024 14:30:00")
     = Ok (Some "2024-07-15T14:30:00")
  /\ convert_timestamp_to_utc Demo.parsedate_to_datetime (Some "not a date")
     = Ok None.
Proof. repeat split; vm_compute; reflexivity. Qed.

Lemma sapp_assoc (a b c : string) : ((a ++ b) ++ c = a ++ (b ++ c))%string.
Proof. induction a as [|x a IH]; simpl; [reflexivity | now rewrite IH]. Qed.

Lemma sapp_nil_r (a : string) : (a ++ EmptyString = a)%string.
Proof. induction a as [|x a IH]; simpl; [reflexivity | now rewrite IH]. Qed.

Lemma isoformat_utc_marker (u : DateTime.datetime) :
  DateTime.tzinfo u = Some 0%Z ->
  DateTime.isoformat u
  = (DateTime.isoformat (DateTime.replace_tzinfo u None) ++ "+00:00")%string.
Proof.
  intros Htz. unfold DateTime.isoformat. rewrite Htz.
  cbn [DateTime.replace_tzinfo DateTime.year DateTime.month DateTime.day
       DateTime.hour DateTime.minute DateTime.second DateTime.microsecond
       DateTime.tzinfo].
  change (DateTime.format_offset (Some 0%Z)) with "+00:00".
  change (DateTime.format_offset None) with EmptyString.
  rewrite sapp_nil_r, !sapp_assoc. reflexivity.
Qed.




(** ** The attachment extractor *)

Arguments message_id_of message_hash message : assert.
Arguments extract_loop parts output_path message_id extracted_files w : assert.
Arguments extract_message_attachments message_hash cls message output_path w : assert.

Definition filename_nonempty (part : Message) : bool :=
  PyStrOps.otruthy (get_filename part).

Definition begins_attachment_or_inline (d : string) : bool :=
  let d' := PyStrOps.lower (PyStrOps.strip d) in
  PyStrOps.startswith "attachment" d' || PyStrOps.startswith "inline" d'.

Definition maintype_not_text (part : Message) : bool :=
  negb (String.eqb (get_content_maintype part) "text").

(** The parts C5 says are extracted: leaves with a non-empty file name whose
    content-disposition begins with attachment or inline or which have no
    content-disposition header and a main type other than text. *)
Definition claimed_extractable (part : Message) : bool :=
  negb (is_multipart part) && filename_nonempty part
  && match get part "Content-Disposition" with
     | Some d => begins_attachment_or_inline d
     | None => maintype_not_text part
     end.

(** The parts the code extracts: as above, except that an empty
    content-disposition header counts as none. *)
Definition extractable (part : Message) : bool :=
  negb (is_multipart part) && filename_nonempty part
  && match get part "Content-Disposition" with
     | Some EmptyString | None => maintype_not_text part
     | Some d => begins_attachment_or_inline d
     end.

Definition filename_of (part : Message) : string :=
  match get_filename part with Some f => f | None => EmptyString end.

Definition payload_of (part : Message) : list ascii :=
  match get_payload_decoded part with Some b => b | None => [] end.

(** The descriptor of the file that holds [part], when the collaborator
    gives it the identifier [uuid]. *)
Definition descriptor_for (output_path message_id : string) (uuid : nat)
  (part : Message) : OutputFile :=
  let '(base, ext) := OsPath.splitext (filename_of part) in
  let e := OsPath.drop_first ext in
  mkOutputFile uuid (base ++ "." ++ message_id) e e
    (output_path ++ "/" ++ nat_dec uuid ++ "." ++ e).

Fixpoint descriptors (output_path message_id : string) (uuid : nat)
  (parts : list Message) : list OutputFile :=
  match parts with
  | [] => []
  | part :: rest =>
      descriptor_for output_path message_id uuid part
      :: descriptors output_path message_id (S uuid) rest
  end.

(** The output directory after the files of [parts] have been written. *)
Definition world_after (w : World) (output_path message_id : string)
  (parts : list Message) : World :=
  mkWorld (next_uuid w + length parts)
    (rev (combine (map of_path
                     (descriptors output_path message_id (next_uuid w) parts))
                  (map payload_of parts))
     ++ disk w)
    (write_fails w).

Lemma should_extract_extractable info data filename :
  get_filename (Leaf info data) = Some filename ->
  PyStrOps.truthy filename = true ->
  should_extract (get (Leaf info data) "Content-Disposition")
    (get_content_maintype (Leaf info data)) filename
  = extractable (Leaf info data).
Proof.
  intros Hf Ht. unfold should_extract, extractable, filename_nonempty.
  rewrite Hf. cbn [PyStrOps.otruthy is_multipart negb andb]. rewrite Ht.
  cbn [andb].
  destruct (get (Leaf info data) "Content-Disposition") as [[|c d]|];
    cbn [PyStrOps.otruthy PyStrOps.truthy negb andb orb];
    unfold begins_attachment_or_inline, maintype_not_text;
    rewrite ?andb_true_r, ?orb_false_r; reflexivity.
Qed.

Lemma world_after_nil w out mid : world_after w out mid [] = w.
Proof.
  unfold world_after. simpl. rewrite Nat.add_0_r. destruct w; reflexivity.
Qed.

Lemma world_after_cons w out mid part parts :
  world_after w out mid (part :: parts)
  = world_after
      (mkWorld (S (next_uuid w))
         ((of_path (descriptor_for out mid (next_uuid w) part), payload_of part)
          :: disk w)
         (write_fails w))
      out mid parts.
Proof.
  unfold world_after. cbn [length map descriptors combine rev next_uuid disk write_fails].
  f_equal; [lia|]. rewrite <- app_assoc. reflexivity.
Qed.

Lemma save_part_ok out mid info data filename w :
  get_filename (Leaf info data) = Some filename ->
  write_fails w (next_uuid w) = false ->
  save_part out mid filename data w
  = (Ok (descriptor_for out mid (next_uuid w) (Leaf info data)),
     mkWorld (S (next_uuid w))
       ((of_path (descriptor_for out mid (next_uuid w) (Leaf info data)), data)
        :: disk w)
       (write_fails w)).
Proof.
  intros Hf Hw. unfold save_part, descriptor_for, filename_of. rewrite Hf.
  destruct (OsPath.splitext filename) as [base ext].
  unfold create_output_file, write_binary.
  cbn [of_uuid next_uuid write_fails disk of_path]. rewrite Hw. reflexivity.
Qed.

Lemma extract_loop_spec out mid : forall parts acc w,
  (forall n, write_fails w n = false) ->
  extract_loop parts out mid acc w
  = (Ok (acc ++ descriptors out mid (next_uuid w) (filter extractable parts)),
     world_after w out mid (filter extractable parts)).
Proof.
  induction parts as [|part parts IH]; intros acc w Hw.
  - simpl. rewrite app_nil_r, world_after_nil. reflexivity.
  - destruct part as [info data | info subparts].
    + cbn [extract_loop filter].
      destruct (get_filename (Leaf info data)) as [filename|] eqn:Hf.
      * destruct (PyStrOps.truthy filename) eqn:Ht.
        -- rewrite (should_extract_extractable info data filename Hf Ht).
           destruct (extractable (Leaf info data)) eqn:He.
           ++ rewrite (save_part_ok out mid info data filename w Hf (Hw _)).
              rewrite IH by (intros n; apply Hw).
              cbn [descriptors next_uuid]. rewrite <- app_assoc.
              rewrite world_after_cons. reflexivity.
           ++ apply IH, Hw.
        -- assert (He : extractable (Leaf info data) = false).
           { unfold extractable, filename_nonempty. rewrite Hf. simpl.
             rewrite Ht. reflexivity. }
           rewrite He. apply IH, Hw.
      * assert (He : extractable (Leaf info data) = false).
        { unfold extractable, filename_nonempty. rewrite Hf. reflexivity. }
        rewrite He. apply IH, Hw.
    + cbn [extract_loop filter].
      change (extractable (Multipart info subparts)) with false.
      apply IH, Hw.
Qed.

Module DemoMessages.

(** An image named by its content type only, under an empty
    [Content-Disposition] header. *)
Definition logo_part : Message :=
  Leaf (mkInfo [("Content-Type", "image/png; name=logo.png");
                ("Content-Disposition", "")]
               "image/png" (Some "logo.png") None)
       (Demo.bytes "PNG").

Definition logo_message : Message :=
  Demo.multipart "mixed" [("Message-ID", "<logo@example.com>")]
    [Demo.text_part "utf-8" "See the logo."; logo_part].

(** A message with a text body, an attached report, an HTML alternative
    that carries a name but no disposition, and an inline image. *)
Definition report_message : Message :=
  Demo.multipart "mixed" [("Message-ID", "<msg1@example.com>")]
    [Demo.text_part "utf-8" "Please find the report attached.";
     Demo.attachment "report.txt" " Attachment; filename=report.txt" "data";
     Leaf (mkInfo [("Content-Type", "text/html; name=body.html")]
                  "text/html" (Some "body.html") (Some "utf-8"))
          (Demo.bytes "<p>Hi</p>");
     Demo.attachment "pic.png" "inline; filename=pic.png" "PNG"].

End DemoMessages.

Example extract_report_message :
  extract_message_attachments Demo.message_hash MboxMessage
    DemoMessages.report_message "out" Demo.empty_world
  = (Ok [mkOutputFile 0 "report._msg1@example.com_" "txt" "txt" "out/0.txt";
         mkOutputFile 1 "pic._msg1@example.com_" "png" "png" "out/1.png"],
     mkWorld 2 [("out/1.png", Demo.bytes "PNG"); ("out/0.txt", Demo.bytes "data")]
       (fun _ => false)).
Proof. reflexivity. Qed.

Example extract_unsupported_object :
  extract_message_attachments Demo.message_hash OtherObject
    DemoMessages.report_message "out" Demo.empty_world
  = (Ok [], Demo.empty_world).
Proof. reflexivity. Qed.




(** ** The multi-message parser *)

Definition locals_of {S : Type} (o : outcome S) : S :=
  match o with Done s => s | Raised _ s => s end.

Section MboxFacts.

Variable bytes_decode : string -> list ascii -> result string.
Variable parsedate_to_datetime : string -> result DateTime.datetime.
Variable message_hash : Message -> string.
Variable mailbox_mbox : string -> result (list Message).

Let metadata := extract_message_metadata bytes_decode parsedate_to_datetime.
Let parse_mbox :=
  parse_mbox_to_dict_and_extract_attachments
    bytes_decode parsedate_to_datetime message_hash mailbox_mbox.

(** The records of the messages up to the first one whose processing
    raises. *)
Fixpoint metadata_prefix (messages : list Message) : list PyDict :=
  match messages with
  | [] => []
  | message :: rest =>
      match metadata [] message with
      | Ok record => record :: metadata_prefix rest
      | Raise _ => []
      end
  end.

Lemma extract_loop_total out mid : forall parts acc w,
  exists files w', extract_loop parts out mid acc w = (Ok files, w').
Proof.
  induction parts as [|part parts IH]; intros acc w.
  - simpl. eauto.
  - destruct part as [info data | info subparts]; cbn [extract_loop]; [|apply IH].
    destruct (get_filename (Leaf info data)) as [filename|]; [|apply IH].
    destruct (PyStrOps.truthy filename); [|apply IH].
    destruct (should_extract _ _ _); [|apply IH].
    destruct (save_part out mid filename data w) as [[f|e] w1]; [apply IH|].
    rewrite isinstance_Exception. apply IH.
Qed.

Lemma extract_message_attachments_total cls message out w :
  exists files w',
    extract_message_attachments message_hash cls message out w = (Ok files, w').
Proof.
  unfold extract_message_attachments. destruct (supported_class cls).
  - apply extract_loop_total.
  - eauto.
Qed.

Lemma mbox_parts_loop_total message out : forall parts paths w,
  exists paths' w',
    mbox_parts_loop message_hash parts message out paths w = (Done paths', w').
Proof.
  induction parts as [|part parts IH]; intros paths w.
  - simpl. eauto.
  - cbn [mbox_parts_loop]. destruct (PyStrOps.otruthy (get_filename part)); [|apply IH].
    destruct (extract_message_attachments_total MboxMessage message out w)
      as (files & w1 & ->).
    apply IH.
Qed.

Lemma mbox_loop_metadata out : forall messages paths md w,
  snd (locals_of (fst (mbox_loop bytes_decode parsedate_to_datetime message_hash
                         messages out paths md w)))
  = md ++ metadata_prefix messages.
Proof.
  induction messages as [|message rest IH]; intros paths md w.
  - simpl. now rewrite app_nil_r.
  - cbn [mbox_loop metadata_prefix].
    destruct (mbox_parts_loop_total message out (walk message) [] w)
      as (paths' & w1 & ->).
    unfold metadata. 
    destruct (extract_message_metadata bytes_decode parsedate_to_datetime [] message)
      as [record|e].
    + rewrite IH. rewrite <- app_assoc. reflexivity.
    + simpl. now rewrite app_nil_r.
Qed.

Lemma metadata_prefix_app before bad after records e :
  Forall2 (fun message record => metadata [] message = Ok record) before records ->
  metadata [] bad = Raise e ->
  metadata_prefix (before ++ bad :: after) = records.
Proof.
  intros Hbefore Hbad. induction Hbefore as [|m r ms rs Hm _ IH].
  - simpl. rewrite Hbad. reflexivity.
  - simpl. rewrite Hm, IH. reflexivity.
Qed.

Lemma parse_mbox_shape file_path output_path w :
  exists paths records w',
    parse_mbox file_path output_path w = (Ok (paths, records), w')
    /\ match mailbox_mbox file_path with
       | Ok messages => records = metadata_prefix messages
       | Raise _ => paths = [] /\ records = [] /\ w' = w
       end.
Proof.
  unfold parse_mbox, parse_mbox_to_dict_and_extract_attachments.
  destruct (mailbox_mbox file_path) as [messages|e].
  - pose proof (mbox_loop_metadata output_path messages [] [] w) as Hmd.
    destruct (mbox_loop _ _ _ messages output_path [] [] w) as [o w'].
    cbn [fst] in Hmd.
    destruct o as [[paths records]|e [paths records]]; cbn in Hmd; subst records.
    + eauto 6.
    + rewrite isinstance_Exception.
      destruct (isinstance e cNoSuchMailboxError); eauto 6.
  - rewrite isinstance_Exception.
    destruct (isinstance e cNoSuchMailboxError); eauto 8.
Qed.

(** C10.  Whatever the file path and the output path are, and whatever
    opening the mailbox or processing its messages does, the multi-message
    parser returns a pair of lists and raises nothing; when the mailbox
    cannot be opened both lists are empty. *)
Theorem parse_mbox_never_raises (file_path output_path : string) (w : World) :
  exists paths records w',
    parse_mbox_to_dict_and_extract_attachments
      bytes_decode parsedate_to_datetime message_hash mailbox_mbox
      file_path output_path w
    = (Ok (paths, records), w')
    /\ (is_ok (mailbox_mbox file_path) = false ->
        paths = [] /\ records = [] /\ w' = w).
Proof.
  destruct (parse_mbox_shape file_path output_path w)
    as (paths & records & w' & Hrun & Hshape).
  exists paths, records, w'. split; [exact Hrun|].
  destruct (mailbox_mbox file_path); [discriminate | intros _; exact Hshape].
Qed.


End MboxFacts.

Module DemoMailbox.

Definition mail (n : string) (parts : list Message) : Message :=
  Demo.multipart "mixed"
    [("Message-ID", ("<msg" ++ n ++ "@example.com>")%string);
     ("Subject", ("Email with Attachment " ++ n)%string)]
    parts.

Definition txt_attachment (n : string) : Message :=
  Demo.attachment ("attachment" ++ n ++ ".txt")
    ("attachment; filename=attachment" ++ n ++ ".txt") ("content " ++ n).

(** Three messages, each with a text body and one attachment of its own. *)
Definition three_messages : list Message :=
  [mail "1" [Demo.text_part "utf-8" "first"; txt_attachment "1"];
   mail "2" [Demo.text_part "utf-8" "second"; txt_attachment "2"];
   mail "3" [Demo.text_part "utf-8" "third"; txt_attachment "3"]].

(** One message with two attachments. *)
Definition two_attachments : list Message :=
  [mail "1" [Demo.text_part "utf-8" "both attached";
             txt_attachment "1"; txt_attachment "2"]].

(** A message whose body declares a charset that names no codec, followed
    by an ordinary message. *)
Definition bad_message : Message := Demo.text_part "x-unknown" "Hi".
Definition good_message : Message := Demo.text_part "utf-8" "Hello".
Definition bad_then_good : list Message := [bad_message; good_message].
Definition good_bad_good : list Message :=
  [good_message; bad_message; good_message].

(** The files of the test directory as [mailbox.mbox] reads them.  A path
    under a directory that does not exist cannot be opened; any other
    unknown path is a new, empty mailbox. *)
Definition mailbox_mbox (file_path : string) : result (list Message) :=
  if String.eqb file_path "three.mbox" then Ok three_messages
  else if String.eqb file_path "two_attachments.mbox" then Ok two_attachments
  else if String.eqb file_path "bad_then_good.mbox" then Ok bad_then_good
  else if String.eqb file_path "good_bad_good.mbox" then Ok good_bad_good
  else if String.eqb file_path "no_such_dir/x.mbox" then Raise OSError
  else Ok [].

Definition message_from_file (file_path : string) : result Message :=
  if String.eqb file_path "two_attachments.eml"
  then Ok (mail "1" [Demo.text_part "utf-8" "both attached";
                     txt_attachment "1"; txt_attachment "2"])
  else Raise OSError.

Definition parse_mbox :=
  parse_mbox_to_dict_and_extract_attachments Demo.bytes_decode
    Demo.parsedate_to_datetime Demo.message_hash mailbox_mbox.

Definition parse_eml :=
  parse_eml_to_dict_and_extract_attachments Demo.bytes_decode
    Demo.parsedate_to_datetime Demo.message_hash message_from_file.

Definition metadata :=
  extract_message_metadata Demo.bytes_decode Demo.parsedate_to_datetime.

(** The two components of what a parser returned, empty if it raised. *)
Definition returned {A B : Type} (r : result (A * B) * World) : option (A * B) :=
  match fst r with Ok p => Some p | Raise _ => None end.

End DemoMailbox.

(** The statement of C10 at a mailbox under a missing directory. *)
Lemma parse_mbox_never_raises_witness :
  exists paths records w',
    DemoMailbox.parse_mbox "no_such_dir/x.mbox" "out" Demo.empty_world
    = (Ok (paths, records), w')
    /\ (is_ok (DemoMailbox.mailbox_mbox "no_such_dir/x.mbox") = false ->
        paths = [] /\ records = [] /\ w' = Demo.empty_world).
Proof.
  exact (parse_mbox_never_raises Demo.bytes_decode Demo.parsedate_to_datetime
           Demo.message_hash DemoMailbox.mailbox_mbox
           "no_such_dir/x.mbox" "out" Demo.empty_world).
Defined.



(** ** Where the multi-message parser departs from its contract *)

(** C1, evaluated.  On a mailbox of three messages, each with one
    attachment of its own, the parser returns three records but a single
    descriptor, that of the last message: the list of descriptors is reset
    at every message.  The three files are written all the same. *)
Theorem parse_mbox_three_messages :
  let r := DemoMailbox.parse_mbox "three.mbox" "out" Demo.empty_world in
  option_map (fun p => (map of_display_name (fst p), length (snd p)))
    (DemoMailbox.returned r)
  = Some (["attachment3._msg3@example.com_"], 3)
  /\ map fst (disk (snd r)) = ["out/2.txt"; "out/1.txt"; "out/0.txt"].
Proof. split; reflexivity. Qed.

Lemma metadata_attachments bytes_decode parsedate_to_datetime
  attachments message record :
  extract_message_metadata bytes_decode parsedate_to_datetime attachments message
  = Ok record ->
  dict_get record "Attachments" = Some (PList attachments).
Proof.
  unfold extract_message_metadata.
  destruct (convert_timestamp_to_utc _ _); [|discriminate].
  destruct (get_message_body _ _); [|discriminate].
  intros [= <-]. reflexivity.
Qed.

Lemma metadata_prefix_attachments bytes_decode parsedate_to_datetime :
  forall messages record,
    In record (metadata_prefix bytes_decode parsedate_to_datetime messages) ->
    dict_get record "Attachments" = Some (PList []).
Proof.
  induction messages as [|message rest IH]; intros record Hin; [destruct Hin|].
  cbn [metadata_prefix] in Hin.
  destruct (extract_message_metadata bytes_decode parsedate_to_datetime [] message)
    as [r|e] eqn:Hr; [|destruct Hin].
  destruct Hin as [<-|Hin]; [|apply IH, Hin].
  apply (metadata_attachments _ _ _ _ _ Hr).
Qed.

(** C2, on the code.  In every record the multi-message parser returns
    the Attachments field is the empty list, whatever file names the parts
    of the message carry: the list [attachment_filenames] is created for
    each message and never filled. *)
Theorem parse_mbox_attachments_empty
  (bytes_decode : string -> list ascii -> result string)
  (parsedate_to_datetime : string -> result DateTime.datetime)
  (message_hash : Message -> string)
  (mailbox_mbox : string -> result (list Message))
  (file_path output_path : string) (w w' : World)
  (paths : list OutputFile) (records : list PyDict) :
  parse_mbox_to_dict_and_extract_attachments
    bytes_decode parsedate_to_datetime message_hash mailbox_mbox
    file_path output_path w
  = (Ok (paths, records), w') ->
  forall record, In record records ->
    dict_get record "Attachments" = Some (PList []).
Proof.
  intros Hrun record Hin.
  destruct (parse_mbox_shape bytes_decode parsedate_to_datetime message_hash
              mailbox_mbox file_path output_path w)
    as (paths0 & records0 & w0 & Hrun0 & Hshape).
  rewrite Hrun in Hrun0. injection Hrun0 as <- <- <-.
  destruct (mailbox_mbox file_path) as [messages|e].
  - subst records. eapply metadata_prefix_attachments, Hin.
  - destruct Hshape as (_ & -> & _). destruct Hin.
Qed.

(** The statement of C2 at a mailbox whose only message has two named
    parts: the record lists no attachment, the parts carry two names. *)
Lemma parse_mbox_attachments_empty_witness :
  filenames_of (flat_map walk DemoMailbox.two_attachments)
  = ["attachment1.txt"; "attachment2.txt"]
  /\ forall record,
       In record
         (match DemoMailbox.returned
                  (DemoMailbox.parse_mbox "two_attachments.mbox" "out"
                     Demo.empty_world) with
          | Some p => snd p
          | None => []
          end) ->
       dict_get record "Attachments" = Some (PList []).
Proof.
  split; [reflexivity|].
  exact (parse_mbox_attachments_empty Demo.bytes_decode
           Demo.parsedate_to_datetime Demo.message_hash
           DemoMailbox.mailbox_mbox "two_attachments.mbox" "out"
           Demo.empty_world _ _ _ eq_refl).
Defined.

(** C4, evaluated.  For a mailbox message with two attachments the
    multi-message parser returns four descriptors and writes four files:
    the whole message is extracted once for each part that has a file name,
    so every qualifying part is extracted twice.  The single-message parser
    returns two descriptors for the same message. *)
Theorem parse_mbox_extracts_twice :
  option_map (fun p => map of_display_name (fst p))
    (DemoMailbox.returned
       (DemoMailbox.parse_mbox "two_attachments.mbox" "out" Demo.empty_world))
  = Some ["attachment1._msg1@example.com_"; "attachment2._msg1@example.com_";
          "attachment1._msg1@example.com_"; "attachment2._msg1@example.com_"]
  /\ map (fun part => filename_of part)
       (filter extractable (flat_map walk DemoMailbox.two_attachments))
     = ["attachment1.txt"; "attachment2.txt"]
  /\ option_map (fun p => map of_display_name (fst p))
       (DemoMailbox.returned
          (DemoMailbox.parse_eml "two_attachments.eml" "out" Demo.empty_world))
     = Some ["attachment1._msg1@example.com_"; "attachment2._msg1@example.com_"].
Proof. repeat split. Qed.

(** ** The CSV module: the writer and reader of the excel dialect *)

Module Csv.

Definition text : Type := list ascii.

Definition comma : ascii := ","%char.
Definition dquote : ascii := PyStr.dquote_c.
Definition cr : ascii := ascii_of_nat 13.
Definition lf : ascii := ascii_of_nat 10.

(** *** Writer: [csv.writer] with the default dialect
    (delimiter comma, quote character double quote, doubled quotes, minimal
    quoting, line terminator CR LF). *)

(** The characters that force a field to be quoted: the delimiter, the
    quote character and the characters of the line terminator. *)
Definition special (c : ascii) : bool :=
  Ascii.eqb c comma || Ascii.eqb c dquote || Ascii.eqb c cr || Ascii.eqb c lf.

(** The field with each quote character doubled. *)
Fixpoint escape (s : text) : text :=
  match s with
  | [] => []
  | c :: s' =>
      if Ascii.eqb c dquote then dquote :: dquote :: escape s'
      else c :: escape s'
  end.

Definition quoted (s : text) : text := dquote :: escape s ++ [dquote].

(** [join_append]: one field as it is added to the record. *)
Definition join_append (s : text) : text :=
  if existsb special s then quoted s else s.

Fixpoint join (fields : list text) : text :=
  match fields with
  | [] => []
  | [f] => join_append f
  | f :: rest => join_append f ++ comma :: join rest
  end.

(** [writerow]: a record that came out empty although it has a field (a
    single empty field) is written as a pair of quotes. *)
Definition writerow (fields : list text) : text :=
  let rec := join fields in
  match fields, rec with
  | _ :: _, [] => quoted [] ++ [cr; lf]
  | _, _ => rec ++ [cr; lf]
  end.

(** *** Reader: [csv.reader] with the default dialect, fed by a file opened
    with [newline=''].  The states of escaped characters are left out: the
    dialect has no escape character. *)

Inductive pstate : Type :=
| START_RECORD | START_FIELD | IN_FIELD | IN_QUOTED_FIELD
| QUOTE_IN_QUOTED_FIELD | EAT_CRNL.

Record Reader : Type := mkReader {
  state : pstate;
  field : text;               (* the field being read, last character first *)
  fields : list text;         (* the fields of the record, last field first *)
  pending_cr : bool;          (* the last character was CR: the line ends
                                 here unless LF follows *)
  open_line : bool;           (* characters were read since the last line end *)
  rows : list (list text)     (* the records returned so far, last first *)
}.

Definition parse_save_field (r : Reader) (st : pstate) : Reader :=
  mkReader st [] (rev (field r) :: fields r)
           (pending_cr r) (open_line r) (rows r).

Definition parse_add_char (r : Reader) (c : ascii) (st : pstate) : Reader :=
  mkReader st (c :: field r) (fields r)
           (pending_cr r) (open_line r) (rows r).

Definition set_state (r : Reader) (st : pstate) : Reader :=
  mkReader st (field r) (fields r) (pending_cr r) (open_line r) (rows r).

Definition is_newline (c : ascii) : bool := Ascii.eqb c lf || Ascii.eqb c cr.

Definition start_field (r : Reader) (c : ascii) : Reader :=
  if is_newline c then parse_save_field r EAT_CRNL
  else if Ascii.eqb c dquote then set_state r IN_QUOTED_FIELD
  else if Ascii.eqb c comma then parse_save_field r START_FIELD
  else parse_add_char r c IN_FIELD.

(** [parse_process_char] on a character; [None] is the error raised for a
    character that follows a line end inside a line. *)
Definition parse_process_char (r : Reader) (c : ascii) : option Reader :=
  match state r with
  | START_RECORD =>
      if is_newline c then Some (set_state r EAT_CRNL)
      else Some (start_field r c)
  | START_FIELD => Some (start_field r c)
  | IN_FIELD =>
      if is_newline c then Some (parse_save_field r EAT_CRNL)
      else if Ascii.eqb c comma then Some (parse_save_field r START_FIELD)
      else Some (parse_add_char r c IN_FIELD)
  | IN_QUOTED_FIELD =>
      if Ascii.eqb c dquote then Some (set_state r QUOTE_IN_QUOTED_FIELD)
      else Some (parse_add_char r c IN_QUOTED_FIELD)
  | QUOTE_IN_QUOTED_FIELD =>
      if Ascii.eqb c dquote then Some (parse_add_char r c IN_QUOTED_FIELD)
      else if Ascii.eqb c comma then Some (parse_save_field r START_FIELD)
      else if is_newline c then Some (parse_save_field r EAT_CRNL)
      else Some (parse_add_char r c IN_FIELD)
  | EAT_CRNL =>
      if is_newline c then Some r else None
  end.

(** [parse_process_char] on the end-of-line mark. *)
Definition parse_process_eol (r : Reader) : Reader :=
  match state r with
  | START_RECORD => r
  | START_FIELD | IN_FIELD | QUOTE_IN_QUOTED_FIELD =>
      parse_save_field r START_RECORD
  | IN_QUOTED_FIELD => r
  | EAT_CRNL => set_state r START_RECORD
  end.

(** The end of a line of the file: the mark is processed and, when the
    reader is back at the start of a record, the record is returned and the
    reader reset. *)
Definition end_line (r : Reader) : Reader :=
  let r' := parse_process_eol r in
  match state r' with
  | START_RECORD =>
      mkReader START_RECORD [] [] false false (rev (fields r') :: rows r')
  | _ => mkReader (state r') (field r') (fields r') false false (rows r')
  end.

(** One character of the file.  Lines end after LF, and after a CR that no
    LF follows. *)
Definition feed (r : Reader) (c : ascii) : option Reader :=
  let r1 := if pending_cr r && negb (Ascii.eqb c lf) then end_line r else r in
  match parse_process_char r1 c with
  | None => None
  | Some r2 =>
      let r3 := mkReader (state r2) (field r2) (fields r2)
                         (Ascii.eqb c cr) true (rows r2) in
      Some (if Ascii.eqb c lf then end_line r3 else r3)
  end.

Fixpoint run (s : text) (r : Reader) : option Reader :=
  match s with
  | [] => Some r
  | c :: s' =>
      match feed r c with
      | None => None
      | Some r' => run s' r'
      end
  end.

Definition fresh (done : list (list text)) : Reader :=
  mkReader START_RECORD [] [] false false done.

(** The end of the file: an unfinished line ends, and a record cut short
    in a field is returned as it stands. *)
Definition finish (r : Reader) : list (list text) :=
  let r1 := if open_line r then end_line r else r in
  match state r1, field r1 with
  | IN_QUOTED_FIELD, _ | _, _ :: _ =>
      rev (rev (rev (field r1) :: fields r1) :: rows r1)
  | _, [] => rev (rows r1)
  end.

(** [list(csv.reader(f))] *)
Definition reader (s : text) : option (list (list text)) :=
  match run s (fresh []) with
  | None => None
  | Some r => Some (finish r)
  end.

End Csv.

(** ** [write_dict_to_csv] *)

(** The header row the worker writes, [csv_headers] in [tasks.py]. *)
Definition csv_headers : list string :=
  ["Timestamp"; "Timestamp_desc"; "Message"; "To"; "From"; "Bcc"; "Cc";
   "Subject"; "Message-ID"; "Date"; "Content-Type"; "Attachments";
   "User-Agent"; "Body"].

Section CsvWriter.

(** [str(l)] for a list of strings. *)
Variable str_of_list : list string -> string.

(** The text the writer emits for one value: nothing for [None], the
    string itself, [str(v)] for anything else. *)
Definition field_str (v : pyval) : string :=
  match v with
  | PNone => EmptyString
  | PStr s => s
  | PList l => str_of_list l
  end.

Definition has_key (fieldnames : list string) (key : string) : bool :=
  existsb (String.eqb key) fieldnames.

(** [DictWriter._dict_to_list] with [extrasaction='raise'] and
    [restval='']. *)
Definition dict_to_list (fieldnames : list string) (rowdict : PyDict)
  : result (list pyval) :=
  if existsb (fun kv => negb (has_key fieldnames (fst kv))) rowdict
  then Raise ValueError
  else Ok (map (fun key => match dict_get rowdict key with
                           | Some v => v
                           | None => PStr EmptyString
                           end) fieldnames).

Definition writerow_values (values : list pyval) : Csv.text :=
  Csv.writerow (map (fun v => list_ascii_of_string (field_str v)) values).

(** [writer.writerows(rowdicts)], appending to the file. *)
Fixpoint writerows (fieldnames : list string) (rowdicts : list PyDict)
  (file : Csv.text) : result Csv.text :=
  match rowdicts with
  | [] => Ok file
  | rowdict :: rest =>
      match dict_to_list fieldnames rowdict with
      | Raise e => Raise e
      | Ok values => writerows fieldnames rest (file ++ writerow_values values)
      end
  end.

(** The content of the file [write_dict_to_csv] leaves behind: the header
    row, then one row for each record. *)
Definition write_dict_to_csv (message_dict : list PyDict)
  (headers : list string) : result Csv.text :=
  let file := Csv.writerow (map list_ascii_of_string headers) in
  writerows headers message_dict file.

(** The fields of a record as strings, in header order. *)
Definition row_strings (headers : list string) (record : PyDict)
  : list string :=
  map (fun key => match dict_get record key with
                  | Some v => field_str v
                  | None => EmptyString
                  end) headers.

End CsvWriter.

(** ** The reader reads back what the writer wrote *)

Module CsvFacts.

Import Csv.

Lemma run_app (a b : text) : forall r,
  run (a ++ b) r = match run a r with None => None | Some r' => run b r' end.
Proof.
  induction a as [|c a IH]; intros r; simpl; [reflexivity|].
  destruct (feed r c); [apply IH | reflexivity].
Qed.

Definition plain (f : text) : Prop := existsb special f = false.

Lemma special_cases c :
  special c = false ->
  Ascii.eqb c comma = false /\ Ascii.eqb c dquote = false
  /\ Ascii.eqb c cr = false /\ Ascii.eqb c lf = false.
Proof.
  unfold special. rewrite !orb_false_iff. tauto.
Qed.

(** Inside a quoted field every character but the quote is kept, wherever
    the lines of the file end. *)
Lemma feed_in_quoted c fld flds p o rws :
  Ascii.eqb c dquote = false ->
  exists p' o',
    feed (mkReader IN_QUOTED_FIELD fld flds p o rws) c
    = Some (mkReader IN_QUOTED_FIELD (c :: fld) flds p' o' rws).
Proof.
  intros Hq. unfold feed.
  destruct p, (Ascii.eqb c lf) eqn:Hlf;
    cbn [pending_cr andb negb end_line parse_process_eol state field fields rows];
    unfold parse_process_char; cbn [state]; rewrite Hq;
    cbn [parse_add_char state field fields rows pending_cr open_line end_line
         parse_process_eol];
    eauto.
Qed.

Lemma feed_close_quote fld flds p o rws :
  feed (mkReader IN_QUOTED_FIELD fld flds p o rws) dquote
  = Some (mkReader QUOTE_IN_QUOTED_FIELD fld flds false true rws).
Proof. destruct p; reflexivity. Qed.

Lemma feed_double_quote fld flds rws :
  feed (mkReader QUOTE_IN_QUOTED_FIELD fld flds false true rws) dquote
  = Some (mkReader IN_QUOTED_FIELD (dquote :: fld) flds false true rws).
Proof. reflexivity. Qed.

Lemma run_escape : forall f fld flds p o rws,
  run (escape f ++ [dquote]) (mkReader IN_QUOTED_FIELD fld flds p o rws)
  = Some (mkReader QUOTE_IN_QUOTED_FIELD (rev f ++ fld) flds false true rws).
Proof.
  induction f as [|c f IH]; intros fld flds p o rws.
  - simpl. rewrite feed_close_quote. reflexivity.
  - cbn [escape]. destruct (Ascii.eqb c dquote) eqn:Hq.
    + apply Ascii.eqb_eq in Hq. subst c.
      cbn [app run]. rewrite feed_close_quote, feed_double_quote.
      rewrite IH. cbn [rev]. rewrite <- app_assoc. reflexivity.
    + cbn [app run].
      destruct (feed_in_quoted c fld flds p o rws Hq) as (p' & o' & ->).
      rewrite IH. cbn [rev]. rewrite <- app_assoc. reflexivity.
Qed.

Definition at_start (st : pstate) : Prop := st = START_RECORD \/ st = START_FIELD.

Lemma run_quoted f st flds o rws :
  at_start st ->
  run (quoted f) (mkReader st [] flds false o rws)
  = Some (mkReader QUOTE_IN_QUOTED_FIELD (rev f) flds false true rws).
Proof.
  intros Hst. unfold quoted. cbn [run].
  assert (Hopen : feed (mkReader st [] flds false o rws) dquote
                  = Some (mkReader IN_QUOTED_FIELD [] flds false true rws)).
  { destruct Hst as [-> | ->]; reflexivity. }
  rewrite Hopen, run_escape, app_nil_r. reflexivity.
Qed.

Lemma feed_plain_first c st flds o rws :
  at_start st -> special c = false ->
  feed (mkReader st [] flds false o rws) c
  = Some (mkReader IN_FIELD [c] flds false true rws).
Proof.
  intros Hst Hc. apply special_cases in Hc. destruct Hc as (Hco & Hq & Hcr & Hlf).
  unfold feed. cbn [pending_cr andb]. rewrite Hlf, Hcr.
  destruct Hst as [-> | ->]; unfold parse_process_char, start_field, is_newline;
    cbn [state]; rewrite Hlf, Hcr, Hq, Hco; reflexivity.
Qed.

Lemma feed_plain_next c fld flds rws :
  special c = false ->
  feed (mkReader IN_FIELD fld flds false true rws) c
  = Some (mkReader IN_FIELD (c :: fld) flds false true rws).
Proof.
  intros Hc. apply special_cases in Hc. destruct Hc as (Hco & Hq & Hcr & Hlf).
  unfold feed. cbn [pending_cr andb]. rewrite Hlf, Hcr.
  unfold parse_process_char, is_newline. cbn [state]. rewrite Hlf, Hcr, Hco.
  reflexivity.
Qed.

Lemma run_plain_next : forall f fld flds rws,
  plain f ->
  run f (mkReader IN_FIELD fld flds false true rws)
  = Some (mkReader IN_FIELD (rev f ++ fld) flds false true rws).
Proof.
  unfold plain. induction f as [|c f IH]; intros fld flds rws Hf; [reflexivity|].
  cbn [existsb] in Hf. apply orb_false_iff in Hf. destruct Hf as [Hc Hf].
  cbn [run]. rewrite (feed_plain_next c fld flds rws Hc), (IH _ _ _ Hf).
  cbn [rev]. rewrite <- app_assoc. reflexivity.
Qed.

Lemma run_plain c f st flds o rws :
  at_start st -> plain (c :: f) ->
  run (c :: f) (mkReader st [] flds false o rws)
  = Some (mkReader IN_FIELD (rev (c :: f)) flds false true rws).
Proof.
  unfold plain. intros Hst Hf. cbn [existsb] in Hf.
  apply orb_false_iff in Hf. destruct Hf as [Hc Hf].
  cbn [run]. rewrite (feed_plain_first c st flds o rws Hst Hc).
  rewrite (run_plain_next f [c] flds rws Hf). reflexivity.
Qed.

(** The reader after a field has been read and before its separator. *)
Inductive after_field (f : text) (flds : list text) (rws : list (list text))
  : Reader -> Prop :=
| af_quoted :
    after_field f flds rws
      (mkReader QUOTE_IN_QUOTED_FIELD (rev f) flds false true rws)
| af_plain :
    f <> [] ->
    after_field f flds rws (mkReader IN_FIELD (rev f) flds false true rws)
| af_empty o :
    f = [] ->
    after_field f flds rws (mkReader START_FIELD [] flds false o rws).

Lemma after_field_comma f flds rws r :
  after_field f flds rws r ->
  feed r comma = Some (mkReader START_FIELD [] (f :: flds) false true rws).
Proof.
  intros [ | Hne | o ->]; unfold feed, parse_process_char, parse_save_field;
    cbn; rewrite ?rev_involutive; reflexivity.
Qed.

Lemma after_field_crlf f flds rws r rest :
  after_field f flds rws r ->
  run (cr :: lf :: rest) r = run rest (fresh (rev (f :: flds) :: rws)).
Proof.
  intros [ | Hne | o ->]; cbn [run]; unfold feed, parse_process_char,
    parse_save_field; cbn; rewrite ?rev_involutive; reflexivity.
Qed.

Lemma run_field f st flds o rws :
  at_start st -> (f = [] -> st = START_FIELD) ->
  exists r, run (join_append f) (mkReader st [] flds false o rws) = Some r
            /\ after_field f flds rws r.
Proof.
  intros Hst Hempty. unfold join_append.
  destruct (existsb special f) eqn:Hs.
  - rewrite (run_quoted f st flds o rws Hst). eexists; split; [reflexivity|].
    constructor.
  - destruct f as [|c f].
    + rewrite (Hempty eq_refl). eexists; split; [reflexivity|].
      now constructor.
    + rewrite (run_plain c f st flds o rws Hst Hs). eexists; split; [reflexivity|].
      constructor. discriminate.
Qed.

(** An empty first field followed by the delimiter. *)
Lemma feed_comma_at_start st flds o rws :
  at_start st ->
  feed (mkReader st [] flds false o rws) comma
  = Some (mkReader START_FIELD [] ([] :: flds) false true rws).
Proof. intros [-> | ->]; reflexivity. Qed.

Lemma run_field_comma f st flds o rws rest :
  at_start st ->
  run (join_append f ++ comma :: rest) (mkReader st [] flds false o rws)
  = run rest (mkReader START_FIELD [] (f :: flds) false true rws).
Proof.
  intros Hst. destruct f as [|c f].
  - cbn [join_append existsb app run]. rewrite (feed_comma_at_start st flds o rws Hst).
    reflexivity.
  - destruct (run_field (c :: f) st flds o rws Hst) as (r & Hr & Haf);
      [discriminate|].
    rewrite run_app, Hr. cbn [run]. rewrite (after_field_comma _ _ _ _ Haf).
    reflexivity.
Qed.

Lemma run_join : forall fs flds o rws rest,
  fs <> [] ->
  run (join fs ++ cr :: lf :: rest) (mkReader START_FIELD [] flds false o rws)
  = run rest (fresh (rev (rev fs ++ flds) :: rws)).
Proof.
  induction fs as [|f fs IH]; intros flds o rws rest Hne; [congruence|].
  destruct fs as [|g fs].
  - cbn [join]. 
    destruct (run_field f START_FIELD flds o rws (or_intror eq_refl) (fun _ => eq_refl))
      as (r & Hr & Haf).
    rewrite run_app, Hr. rewrite (after_field_crlf _ _ _ _ rest Haf). reflexivity.
  - change (join (f :: g :: fs)) with (join_append f ++ comma :: join (g :: fs)).
    rewrite <- app_assoc. cbn [app].
    rewrite run_field_comma by (right; reflexivity).
    rewrite IH by discriminate.
    cbn [rev]. rewrite <- !app_assoc. reflexivity.
Qed.

(** One record. *)
Lemma run_writerow fs done rest :
  run (writerow fs ++ rest) (fresh done) = run rest (fresh (fs :: done)).
Proof.
  unfold writerow, fresh. destruct fs as [|f fs].
  - reflexivity.
  - destruct fs as [|g fs].
    + cbn [join]. destruct (join_append f) as [|c s] eqn:Hj.
      * assert (f = []) as ->.
        { unfold join_append in Hj. destruct (existsb special f); [discriminate | exact Hj]. }
        reflexivity.
      * rewrite <- Hj. rewrite <- app_assoc. cbn [app].
        destruct (run_field f START_RECORD [] false done (or_introl eq_refl))
          as (r & Hr & Haf).
        { intros ->. discriminate Hj. }
        rewrite run_app, Hr. rewrite (after_field_crlf _ _ _ _ rest Haf).
        reflexivity.
    + assert (Hj : join (f :: g :: fs) = join_append f ++ comma :: join (g :: fs))
        by reflexivity.
      destruct (join (f :: g :: fs)) as [|c s] eqn:Hjj.
      * destruct (join_append f); discriminate Hj.
      * rewrite Hj. rewrite <- !app_assoc. cbn [app].
        rewrite run_field_comma by (left; reflexivity).
        rewrite run_join by discriminate.
        cbn [rev]. rewrite <- app_assoc. rewrite rev_app_distr, rev_involutive.
        reflexivity.
Qed.

Lemma run_writerows : forall table done,
  run (concat (map writerow table)) (fresh done)
  = Some (fresh (rev table ++ done)).
Proof.
  induction table as [|fs table IH]; intros done; [reflexivity|].
  cbn [map concat]. rewrite run_writerow, IH. cbn [rev].
  rewrite <- app_assoc. reflexivity.
Qed.

(** The reader returns the records that were written, in order, whatever
    characters they contain. *)
Lemma reader_writerows (table : list (list text)) :
  reader (concat (map writerow table)) = Some table.
Proof.
  unfold reader. rewrite run_writerows. unfold finish, fresh.
  cbn. rewrite app_nil_r, rev_involutive. reflexivity.
Qed.

End CsvFacts.

(** ** The CSV writer *)

Arguments row_strings str_of_list headers record : assert.
Arguments write_dict_to_csv str_of_list message_dict headers : assert.

(** A record only has columns of the header. *)
Definition keys_within (headers : list string) (record : PyDict) : Prop :=
  forall key value, In (key, value) record -> In key headers.

Section CsvWriterFacts.

Variable str_of_list : list string -> string.

Let as_text (row : list string) : list Csv.text := map list_ascii_of_string row.

Lemma has_key_In headers key : has_key headers key = true <-> In key headers.
Proof.
  unfold has_key. rewrite existsb_exists. split.
  - intros (k & Hin & Heq). apply String.eqb_eq in Heq. now subst.
  - intros Hin. exists key. split; [exact Hin | apply String.eqb_refl].
Qed.

Lemma dict_to_list_ok headers record :
  keys_within headers record ->
  exists values,
    dict_to_list headers record = Ok values
    /\ map (field_str str_of_list) values = row_strings str_of_list headers record.
Proof.
  intros Hkeys. unfold dict_to_list.
  assert (Hno : existsb (fun kv => negb (has_key headers (fst kv))) record = false).
  { apply not_true_is_false. intros Hex. apply existsb_exists in Hex.
    destruct Hex as ([k v] & Hin & Hneg). apply negb_true_iff in Hneg.
    apply Hkeys in Hin. apply has_key_In in Hin. simpl in Hneg. congruence. }
  rewrite Hno. eexists. split; [reflexivity|].
  unfold row_strings. rewrite map_map. apply map_ext. intros key.
  destruct (dict_get record key); reflexivity.
Qed.

Lemma writerows_ok headers : forall records file,
  Forall (keys_within headers) records ->
  writerows str_of_list headers records file
  = Ok (file ++ concat (map (fun record =>
                               Csv.writerow
                                 (as_text (row_strings str_of_list headers record)))
                            records)).
Proof.
  induction records as [|record records IH]; intros file Hall.
  - simpl. now rewrite app_nil_r.
  - inversion Hall as [|? ? Hrec Hrest]; subst.
    cbn [writerows map concat].
    destruct (dict_to_list_ok headers record Hrec) as (values & -> & Hvalues).
    rewrite IH by exact Hrest. unfold writerow_values.
    rewrite <- Hvalues. unfold as_text. rewrite map_map, app_assoc. reflexivity.
Qed.


End CsvWriterFacts.

(** The records the metadata assembler builds have exactly the columns of
    the header. *)
Lemma metadata_keys_within bytes_decode parsedate_to_datetime
  attachments message record :
  extract_message_metadata bytes_decode parsedate_to_datetime attachments message
  = Ok record ->
  keys_within csv_headers record /\ map fst record = csv_headers.
Proof.
  unfold extract_message_metadata.
  destruct (convert_timestamp_to_utc _ _); [|discriminate].
  destruct (get_message_body _ _); [|discriminate].
  intros [= <-]. split; [|reflexivity].
  intros key value Hin. unfold csv_headers. simpl in Hin |- *.
  repeat (destruct Hin as [[= <- _]|Hin]; [tauto|]). destruct Hin.
Qed.

Module DemoCsv.

Definition q : string := String PyStr.dquote_c EmptyString.
Definition crlf : string := String Csv.cr (String Csv.lf EmptyString).

Fixpoint join_with (sep : string) (l : list string) : string :=
  match l with
  | [] => EmptyString
  | [s] => s
  | s :: rest => (s ++ sep ++ join_with sep rest)%string
  end.

(** [str(l)] for file names without quotes, backslashes or control
    characters. *)
Definition str_of_list (l : list string) : string :=
  ("[" ++ join_with ", " (map (fun s => "'" ++ s ++ "'") l) ++ "]")%string.

(** A message whose body holds the delimiter, quotes and a line break. *)
Definition tricky_message : Message :=
  Leaf (mkInfo [("Subject", "Report, final"); ("To", "bob@example.com");
                ("Date", "Mon, 15 Jul 2024 10:30:00 -0400")]
               "text/plain" None (Some "utf-8"))
       (Demo.bytes ("Dear all," ++ crlf ++ "the " ++ q ++ "report" ++ q
                    ++ " is attached.")).

Definition tricky_record : PyDict :=
  match DemoMailbox.metadata ["a.txt"; "b.png"] tricky_message with
  | Ok record => record
  | Raise _ => []
  end.

End DemoCsv.

Example write_dict_to_csv_tricky :
  option_map (map (map string_of_list_ascii))
    (match write_dict_to_csv DemoCsv.str_of_list [DemoCsv.tricky_record]
             csv_headers with
     | Ok file => Csv.reader file
     | Raise _ => None
     end)
  = Some [csv_headers;
          ["2024-07-15T14:30:00+00:00"; "Email received"; "Email message";
           "bob@example.com"; ""; ""; ""; "Report, final"; "";
           "Mon, 15 Jul 2024 10:30:00 -0400"; "text/plain";
           "['a.txt', 'b.png']"; "";
           ("Dear all," ++ DemoCsv.crlf ++ "the " ++ DemoCsv.q ++ "report"
            ++ DemoCsv.q ++ " is attached.")%string]].
Proof. vm_compute. reflexivity. Qed.


(** * Further properties of the parsing utilities *)

(** ** The sanitizer, composed *)

Lemma smap_app f (a b : string) :
  PyStr.smap f (a ++ b)%string = (PyStr.smap f a ++ PyStr.smap f b)%string.
Proof. induction a as [|c a IH]; simpl; [reflexivity | now rewrite IH]. Qed.

Lemma sanitize_char_idem c : sanitize_char (sanitize_char c) = sanitize_char c.
Proof.
  unfold sanitize_char at 1. rewrite sanitize_char_valid. reflexivity.
Qed.

(** X1.  Sanitizing is idempotent: a sanitized file name is left as it is
    by a second pass. *)
Theorem santitize_filename_idempotent (s : string) :
  santitize_filename (santitize_filename s) = santitize_filename s.
Proof.
  unfold santitize_filename. induction s as [|c s IH]; simpl; [reflexivity|].
  rewrite sanitize_char_idem, IH. reflexivity.
Qed.

(** X2.  Sanitizing distributes over concatenation, and a string that holds
    none of the nine characters is returned unchanged. *)
Theorem santitize_filename_app (a b : string) :
  santitize_filename (a ++ b)%string
  = (santitize_filename a ++ santitize_filename b)%string
  /\ ((forall c, In c invalid_chars -> ~ PyStr.occurs c a) ->
      santitize_filename a = a).
Proof.
  split; [apply smap_app|].
  unfold santitize_filename. induction a as [|c a IH]; intros Hclean;
    simpl; [reflexivity|].
  rewrite IH by (intros d Hd Ho; apply (Hclean d Hd); simpl; auto).
  unfold sanitize_char. destruct (PyStr.mem c invalid_chars) eqn:Hm; [|reflexivity].
  exfalso. apply PyStr.mem_In in Hm. apply (Hclean c Hm). simpl. auto.
Qed.

Lemma santitize_filename_app_witness :
  santitize_filename "report.txt" = "report.txt".
Proof.
  apply (proj2 (santitize_filename_app "report.txt" "")).
  intros c Hc Ho. simpl in Hc, Ho.
  repeat (destruct Hc as [<-|Hc];
          [repeat (destruct Ho as [Ho|Ho]; [discriminate Ho|]); exact Ho|]).
  exact Hc.
Defined.

(** ** The message identifier *)

Lemma truthy_nonempty s : PyStrOps.truthy s = true <-> s <> "".
Proof. destruct s; simpl; split; congruence. Qed.

(** X3.  The identifier put into display names is never empty: it is the
    sanitized Message-ID header, which holds none of the nine characters,
    when that is not empty, and otherwise the word unknown_message_ followed
    by the hash of the message. *)
Theorem message_id_of_spec (message_hash : Message -> string) (message : Message) :
  let header := santitize_filename (get_default message "Message-ID" "") in
  message_id_of message_hash message <> ""
  /\ (header <> "" ->
      message_id_of message_hash message = header
      /\ forall c, In c invalid_chars ->
           ~ PyStr.occurs c (message_id_of message_hash message))
  /\ (header = "" ->
      message_id_of message_hash message
      = ("unknown_message_" ++ message_hash message)%string).
Proof.
  cbv zeta. unfold message_id_of.
  destruct (santitize_filename (get_default message "Message-ID" "")) as [|c s] eqn:Hh.
  - cbn [PyStrOps.truthy negb]. repeat split; try discriminate; congruence.
  - cbn [PyStrOps.truthy negb]. repeat split; try discriminate.
    intros d Hd Ho. rewrite <- Hh in Ho. unfold santitize_filename in Ho.
    apply PyStr.occurs_smap in Ho. destruct Ho as (e & _ & ->).
    apply PyStr.mem_In in Hd. rewrite sanitize_char_valid in Hd. discriminate.
Qed.

Lemma message_id_of_spec_witness :
  message_id_of Demo.message_hash DemoMessages.logo_message = "_logo@example.com_"
  /\ message_id_of Demo.message_hash (Demo.text_part "utf-8" "Hi")
     = "unknown_message_12345678".
Proof.
  split.
  - apply (proj1 (proj2 (message_id_of_spec Demo.message_hash
                           DemoMessages.logo_message))).
    discriminate.
  - apply (proj2 (proj2 (message_id_of_spec Demo.message_hash
                           (Demo.text_part "utf-8" "Hi")))).
    reflexivity.
Defined.

(** ** File names and descriptors *)

Module OsPathFacts.

Import OsPath.
Local Open Scope Z_scope.

Lemma rfind_from_spec c : forall s i best,
  best < i ->
  rfind_from c s i best = best
  \/ (i <= rfind_from c s i best < i + Z.of_nat (String.length s)
      /\ String.get (Z.to_nat (rfind_from c s i best - i)) s = Some c).
Proof.
  induction s as [|d s IH]; intros i best Hlt; [left; reflexivity|].
  cbn [rfind_from String.length].
  destruct (Ascii.eqb_spec d c) as [->|Hne].
  - destruct (IH (i + 1) i ltac:(lia)) as [-> | (Hr & Hg)].
    + right. split; [lia|]. rewrite Z.sub_diag. reflexivity.
    + right. split; [lia|].
      replace (Z.to_nat (rfind_from c s (i + 1) i - i))
        with (S (Z.to_nat (rfind_from c s (i + 1) i - (i + 1)))) by lia.
      exact Hg.
  - destruct (IH (i + 1) best ltac:(lia)) as [-> | (Hr & Hg)].
    + left. reflexivity.
    + right. split; [lia|].
      replace (Z.to_nat (rfind_from c s (i + 1) best - i))
        with (S (Z.to_nat (rfind_from c s (i + 1) best - (i + 1)))) by lia.
      exact Hg.
Qed.

Lemma rfind_spec c s :
  rfind c s = -1
  \/ (0 <= rfind c s < Z.of_nat (String.length s)
      /\ String.get (Z.to_nat (rfind c s)) s = Some c).
Proof.
  unfold rfind. destruct (rfind_from_spec c s 0 (-1) ltac:(lia)) as [H | (Hr & Hg)].
  - left. exact H.
  - right. split; [lia|]. rewrite Z.sub_0_r in Hg. exact Hg.
Qed.

Lemma substring_all : forall s, String.substring 0 (String.length s) s = s.
Proof. induction s as [|c s IH]; simpl; [reflexivity | now rewrite IH]. Qed.

Lemma substring_split : forall n s,
  (n <= String.length s)%nat ->
  (String.substring 0 n s ++ String.substring n (String.length s - n) s)%string = s.
Proof.
  induction n as [|n IH]; intros s Hn.
  - rewrite Nat.sub_0_r, substring_all. destruct s; reflexivity.
  - destruct s as [|c s]; simpl in Hn; [lia|].
    cbn [String.substring String.length Nat.sub String.append].
    rewrite IH by lia. reflexivity.
Qed.

Lemma substring_head : forall n m s c,
  String.get n s = Some c ->
  exists t, String.substring n (S m) s = String c t.
Proof.
  induction n as [|n IH]; intros m s c Hg; destruct s as [|d s]; try discriminate.
  - simpl in Hg. injection Hg as ->. simpl. eauto.
  - simpl in Hg. simpl. apply IH, Hg.
Qed.

(** [splitext] loses no character, and the extension is empty or begins
    with the dot. *)
Lemma splitext_spec p :
  let '(base, ext) := splitext p in
  (base ++ ext)%string = p
  /\ (ext = EmptyString \/ exists t, ext = String PyStr.dot_c t).
Proof.
  unfold splitext.
  destruct (rfind PyStr.slash_c p <? rfind PyStr.dot_c p) eqn:Hlt;
    [|split; [apply sapp_nil_r | left; reflexivity]].
  destruct (all_dots _); [split; [apply sapp_nil_r | left; reflexivity]|].
  apply Z.ltb_lt in Hlt.
  destruct (rfind_spec PyStr.slash_c p) as [Hs | (Hs & _)];
    destruct (rfind_spec PyStr.dot_c p) as [Hd | (Hd & Hg)]; try lia.
  - unfold slice, slice_from. rewrite Z.sub_0_r. change (Z.to_nat 0) with 0%nat.
    split; [apply substring_split; lia|]. right.
    replace (String.length p - Z.to_nat (rfind PyStr.dot_c p))%nat
      with (S (String.length p - Z.to_nat (rfind PyStr.dot_c p) - 1)) by lia.
    apply substring_head, Hg.
  - unfold slice, slice_from. rewrite Z.sub_0_r. change (Z.to_nat 0) with 0%nat.
    split; [apply substring_split; lia|]. right.
    replace (String.length p - Z.to_nat (rfind PyStr.dot_c p))%nat
      with (S (String.length p - Z.to_nat (rfind PyStr.dot_c p) - 1)) by lia.
    apply substring_head, Hg.
Qed.

End OsPathFacts.

Definition bump (w : World) : World :=
  mkWorld (S (next_uuid w)) (disk w) (write_fails w).

Lemma save_part_eq out mid filename data w :
  save_part out mid filename data w
  = let '(base, ext) := OsPath.splitext filename in
    let e := OsPath.drop_first ext in
    let f := mkOutputFile (next_uuid w) (base ++ "." ++ mid) e e
               (out ++ "/" ++ nat_dec (next_uuid w) ++ "." ++ e) in
    if write_fails w (next_uuid w) then (Raise OSError, bump w)
    else (Ok f, mkWorld (S (next_uuid w)) ((of_path f, data) :: disk w)
                  (write_fails w)).
Proof.
  unfold save_part. destruct (OsPath.splitext filename) as [base ext].
  unfold create_output_file, write_binary, bump.
  cbn [of_uuid next_uuid write_fails disk of_path].
  destruct (write_fails w (next_uuid w)); reflexivity.
Qed.



(** ** The attachment extractor when saving may fail *)

(** The parts, among [parts], whose file is written: the part that receives
    the identifier [uuid] is lost when writing that file fails. *)
Fixpoint kept (fails : nat -> bool) (uuid : nat) (parts : list Message)
  : list (nat * Message) :=
  match parts with
  | [] => []
  | part :: rest =>
      if fails uuid then kept fails (S uuid) rest
      else (uuid, part) :: kept fails (S uuid) rest
  end.

Definition kept_files (output_path message_id : string)
  (l : list (nat * Message)) : list OutputFile :=
  map (fun up => descriptor_for output_path message_id (fst up) (snd up)) l.

Definition kept_disk (output_path message_id : string)
  (l : list (nat * Message)) : list (string * list ascii) :=
  map (fun up => (of_path (descriptor_for output_path message_id (fst up) (snd up)),
                  payload_of (snd up))) l.

Lemma kept_length fails : forall parts uuid,
  length (kept fails uuid parts) <= length parts.
Proof.
  induction parts as [|p parts IH]; intros uuid; simpl; [lia|].
  destruct (fails uuid); simpl; specialize (IH (S uuid)); lia.
Qed.

Lemma kept_no_failure fails : forall parts uuid,
  (forall n, fails n = false) ->
  map snd (kept fails uuid parts) = parts.
Proof.
  induction parts as [|p parts IH]; intros uuid Hf; simpl; [reflexivity|].
  rewrite Hf. simpl. now rewrite IH.
Qed.

Lemma save_part_leaf out mid info data filename w :
  get_filename (Leaf info data) = Some filename ->
  save_part out mid filename data w
  = if write_fails w (next_uuid w) then (Raise OSError, bump w)
    else (Ok (descriptor_for out mid (next_uuid w) (Leaf info data)),
          mkWorld (S (next_uuid w))
            ((of_path (descriptor_for out mid (next_uuid w) (Leaf info data)),
              data) :: disk w)
            (write_fails w)).
Proof.
  intros Hf. rewrite save_part_eq. unfold descriptor_for, filename_of.
  rewrite Hf. destruct (OsPath.splitext filename) as [base ext]. reflexivity.
Qed.

Lemma extract_loop_general out mid : forall parts acc w,
  exists w',
    extract_loop parts out mid acc w
    = (Ok (acc ++ kept_files out mid
                    (kept (write_fails w) (next_uuid w) (filter extractable parts))),
       w')
    /\ next_uuid w' = next_uuid w + length (filter extractable parts)
    /\ write_fails w' = write_fails w
    /\ disk w'
       = rev (kept_disk out mid
                (kept (write_fails w) (next_uuid w) (filter extractable parts)))
         ++ disk w.
Proof.
  induction parts as [|part parts IH]; intros acc w.
  - exists w. simpl. rewrite app_nil_r, Nat.add_0_r. auto.
  - assert (Hskip : extractable part = false ->
                    extract_loop (part :: parts) out mid acc w
                    = extract_loop parts out mid acc w ->
                    exists w',
                      extract_loop (part :: parts) out mid acc w
                      = (Ok (acc ++ kept_files out mid
                               (kept (write_fails w) (next_uuid w)
                                  (filter extractable (part :: parts)))), w')
                      /\ next_uuid w' = next_uuid w
                                        + length (filter extractable (part :: parts))
                      /\ write_fails w' = write_fails w
                      /\ disk w'
                         = rev (kept_disk out mid
                                  (kept (write_fails w) (next_uuid w)
                                     (filter extractable (part :: parts))))
                           ++ disk w).
    { intros He Hstep. rewrite Hstep. cbn [filter]. rewrite He. apply IH. }
    destruct part as [info data | info subparts]; [|apply Hskip; reflexivity].
    destruct (get_filename (Leaf info data)) as [filename|] eqn:Hf.
    2:{ apply Hskip; [|cbn [extract_loop]; rewrite Hf; reflexivity].
        unfold extractable, filename_nonempty. rewrite Hf. reflexivity. }
    destruct (PyStrOps.truthy filename) eqn:Ht.
    2:{ apply Hskip; [|cbn [extract_loop]; rewrite Hf, Ht; reflexivity].
        unfold extractable, filename_nonempty. rewrite Hf. simpl. rewrite Ht.
        reflexivity. }
    pose proof (should_extract_extractable info data filename Hf Ht) as Hse.
    destruct (extractable (Leaf info data)) eqn:He.
    2:{ apply Hskip; [reflexivity|]. cbn [extract_loop]. rewrite Hf, Ht, Hse.
        reflexivity. }
    clear Hskip. cbn [extract_loop filter]. rewrite Hf, Ht, Hse, He.
    rewrite (save_part_leaf out mid info data filename w Hf).
    cbn [kept]. destruct (write_fails w (next_uuid w)) eqn:Hfail.
    + rewrite isinstance_Exception.
      destruct (IH acc (bump w)) as (w' & Hrun & Hn & Hfl & Hd).
      exists w'. cbn [bump next_uuid write_fails disk] in *.
      rewrite Hrun. repeat split; auto. cbn [length]. lia.
    + destruct (IH (acc ++ [descriptor_for out mid (next_uuid w) (Leaf info data)])
                  (mkWorld (S (next_uuid w))
                     ((of_path (descriptor_for out mid (next_uuid w) (Leaf info data)),
                       data) :: disk w)
                     (write_fails w)))
        as (w' & Hrun & Hn & Hfl & Hd).
      exists w'. cbn [next_uuid write_fails disk] in *.
      rewrite Hrun. cbn [kept_files kept_disk map fst snd rev length].
      rewrite <- !app_assoc. repeat split; auto; try lia;
        try (rewrite Hd; reflexivity).
Qed.


Module DemoFailure.

(** An output directory in which the first file cannot be written. *)
Definition first_fails : World := mkWorld 0 [] (fun n => Nat.eqb n 0).

End DemoFailure.


(** ** The metadata assembler and the single-message parser *)

Lemma convert_timestamp_total parsedate_to_datetime date_str :
  exists r, convert_timestamp_to_utc parsedate_to_datetime date_str = Ok r.
Proof.
  unfold convert_timestamp_to_utc, try_except.
  destruct date_str as [s|]; [|eauto].
  destruct (negb (PyStrOps.truthy s)); [eauto|].
  destruct (parsedate_to_datetime s) as [d|e].
  - destruct (DateTime.tzinfo d) as [off|]; [|eauto].
    destruct (DateTime.astimezone_utc d off); [eauto|].
    rewrite isinstance_Exception. eauto.
  - rewrite isinstance_Exception. eauto.
Qed.



Lemma filenames_of_filter : forall parts,
  length (filenames_of parts) = length (filter filename_nonempty parts).
Proof.
  induction parts as [|p parts IH]; [reflexivity|].
  cbn [filenames_of filter]. unfold filename_nonempty at 1.
  destruct (get_filename p) as [f|]; cbn [PyStrOps.otruthy]; [|exact IH].
  destruct (PyStrOps.truthy f); simpl; now rewrite IH.
Qed.

Lemma extractable_named part :
  extractable part = true -> filename_nonempty part = true.
Proof.
  unfold extractable. rewrite !andb_true_iff. tauto.
Qed.

Lemma filter_extractable_length : forall parts,
  length (filter extractable parts) <= length (filter filename_nonempty parts).
Proof.
  induction parts as [|p parts IH]; [reflexivity|].
  cbn [filter]. destruct (extractable p) eqn:He.
  - rewrite (extractable_named p He). simpl. lia.
  - destruct (filename_nonempty p); simpl; lia.
Qed.

Section EmlFacts.

Variable bytes_decode : string -> list ascii -> result string.
Variable parsedate_to_datetime : string -> result DateTime.datetime.
Variable message_hash : Message -> string.
Variable message_from_file : string -> result Message.

Let parse_eml :=
  parse_eml_to_dict_and_extract_attachments
    bytes_decode parsedate_to_datetime message_hash message_from_file.

(** X7.  The record of the single-message parser lists every named part.
    When the parser returns, the Attachments field of its record holds the
    file names of all parts of the message that carry one, in document
    order, whether they were extracted or not, and the descriptors it
    returns are at most as many as these names. *)
Theorem parse_eml_declared_attachments (file_path output_path : string)
  (w w' : World) (msg : Message) (files : list OutputFile) (record : PyDict) :
  message_from_file file_path = Ok msg ->
  parse_eml_to_dict_and_extract_attachments
    bytes_decode parsedate_to_datetime message_hash message_from_file
    file_path output_path w
  = (Ok (files, record), w') ->
  dict_get record "Attachments" = Some (PList (filenames_of (walk msg)))
  /\ length files <= length (filenames_of (walk msg)).
Proof.
  intros Hopen. unfold parse_eml_to_dict_and_extract_attachments.
  rewrite Hopen. unfold extract_message_attachments. cbn [supported_class].
  destruct (extract_loop_general output_path (message_id_of message_hash msg)
              (walk msg) [] w) as (w1 & -> & _ & _ & _).
  destruct (extract_message_metadata bytes_decode parsedate_to_datetime
              (filenames_of (walk msg)) msg) as [rec|e] eqn:Hmd; [|discriminate].
  intros [= <- <- <-]. split.
  - apply (metadata_attachments _ _ _ _ _ Hmd).
  - cbn [app]. unfold kept_files. rewrite length_map.
    rewrite filenames_of_filter.
    etransitivity; [apply kept_length | apply filter_extractable_length].
Qed.


End EmlFacts.

Module DemoEml.

(** A message whose body cannot be decoded and which has one attachment. *)
Definition undecodable : Message :=
  Demo.multipart "mixed" [("Message-ID", "<bad@example.com>")]
    [Demo.text_part "x-unknown" "Hi";
     Demo.attachment "a.txt" "attachment; filename=a.txt" "data"].

Definition message_from_file (file_path : string) : result Message :=
  if String.eqb file_path "undecodable.eml" then Ok undecodable
  else if String.eqb file_path "two_attachments.eml"
  then DemoMailbox.message_from_file file_path
  else Raise OSError.

Definition parse_eml :=
  parse_eml_to_dict_and_extract_attachments Demo.bytes_decode
    Demo.parsedate_to_datetime Demo.message_hash message_from_file.

End DemoEml.

Lemma parse_eml_declared_attachments_witness :
  dict_get
    (match DemoMailbox.returned
             (DemoEml.parse_eml "two_attachments.eml" "out" Demo.empty_world) with
     | Some p => snd p
     | None => []
     end) "Attachments"
  = Some (PList ["attachment1.txt"; "attachment2.txt"])
  /\ 2 <= 2.
Proof.
  refine (parse_eml_declared_attachments Demo.bytes_decode
            Demo.parsedate_to_datetime Demo.message_hash
            DemoEml.message_from_file "two_attachments.eml" "out"
            Demo.empty_world _ _ _ _ eq_refl eq_refl).
Defined.


(** ** What the multi-message parser returns and writes *)

Lemma descriptors_app out mid : forall a b n,
  descriptors out mid n (a ++ b)
  = descriptors out mid n a ++ descriptors out mid (n + length a) b.
Proof.
  induction a as [|p a IH]; intros b n; simpl.
  - now rewrite Nat.add_0_r.
  - rewrite IH. do 3 f_equal. lia.
Qed.

Lemma descriptors_length out mid : forall parts n,
  length (descriptors out mid n parts) = length parts.
Proof. induction parts; intros n; simpl; auto. Qed.

Lemma combine_append {A B : Type} : forall (a b : list A) (a' b' : list B),
  length a = length a' ->
  combine (a ++ b) (a' ++ b') = combine a a' ++ combine b b'.
Proof.
  induction a as [|x a IH]; intros b [|y a'] b' Hlen; try discriminate;
    simpl; [reflexivity|].
  rewrite IH by (simpl in Hlen; lia). reflexivity.
Qed.

Lemma world_after_app w out mid a b :
  world_after (world_after w out mid a) out mid b = world_after w out mid (a ++ b).
Proof.
  unfold world_after. cbn [next_uuid disk write_fails].
  rewrite length_app, descriptors_app, !map_app.
  f_equal; [lia|].
  rewrite combine_append by (now rewrite !length_map, descriptors_length).
  rewrite rev_app_distr, app_assoc. reflexivity.
Qed.

(** The parts whose files the multi-message parser writes for one message:
    the extractable parts, once for every part that has a file name. *)
Definition mbox_writes (message : Message) : list Message :=
  concat (repeat (filter extractable (walk message))
                 (length (filter filename_nonempty (walk message)))).

Lemma mbox_writes_length message :
  length (mbox_writes message)
  = length (filter filename_nonempty (walk message))
    * length (filter extractable (walk message)).
Proof.
  unfold mbox_writes.
  induction (length (filter filename_nonempty (walk message))) as [|k IH];
    simpl; [reflexivity|].
  rewrite length_app, IH. reflexivity.
Qed.

Section MboxFiles.

Variable bytes_decode : string -> list ascii -> result string.
Variable parsedate_to_datetime : string -> result DateTime.datetime.
Variable message_hash : Message -> string.
Variable mailbox_mbox : string -> result (list Message).

Lemma mbox_parts_loop_spec message out : forall parts acc w,
  (forall n, write_fails w n = false) ->
  let again :=
    concat (repeat (filter extractable (walk message))
                   (length (filter filename_nonempty parts))) in
  mbox_parts_loop message_hash parts message out acc w
  = (Done (acc ++ descriptors out (message_id_of message_hash message)
                    (next_uuid w) again),
     world_after w out (message_id_of message_hash message) again).
Proof.
  induction parts as [|part parts IH]; intros acc w Hw; cbv zeta.
  - simpl. rewrite app_nil_r, world_after_nil. reflexivity.
  - cbn [mbox_parts_loop filter]. fold (filename_nonempty part).
    destruct (filename_nonempty part); [|apply IH, Hw].
    unfold extract_message_attachments. cbn [supported_class].
    rewrite extract_loop_spec by exact Hw. cbn [app].
    rewrite IH by exact Hw. cbv zeta.
    cbn [length repeat concat].
    rewrite world_after_app, descriptors_app, <- app_assoc.
    unfold world_after at 1. cbn [next_uuid]. reflexivity.
Qed.

(** The descriptors the loop over the messages ends with, when the file
    identifiers start at [n]. *)
Fixpoint mbox_paths (out : string) (n : nat) (paths : list OutputFile)
  (messages : list Message) : list OutputFile :=
  match messages with
  | [] => paths
  | message :: rest =>
      mbox_paths out (n + length (mbox_writes message))
        (descriptors out (message_id_of message_hash message) n
           (mbox_writes message))
        rest
  end.

Lemma mbox_paths_last out : forall init n paths last,
  mbox_paths out n paths (init ++ [last])
  = descriptors out (message_id_of message_hash last)
      (n + length (flat_map mbox_writes init)) (mbox_writes last).
Proof.
  induction init as [|m init IH]; intros n paths last; simpl.
  - now rewrite Nat.add_0_r.
  - rewrite IH, length_app. f_equal. lia.
Qed.

Definition decodable (message : Message) : Prop :=
  is_ok (get_message_body bytes_decode message) = true.

Lemma decodable_metadata message :
  decodable message ->
  exists record,
    extract_message_metadata bytes_decode parsedate_to_datetime [] message
    = Ok record.
Proof.
  unfold decodable, extract_message_metadata. intros Hd.
  destruct (convert_timestamp_total parsedate_to_datetime (get message "Date"))
    as (ts & ->).
  destruct (get_message_body bytes_decode message); [eauto | discriminate].
Qed.

Lemma mbox_loop_spec out : forall messages paths md w,
  (forall n, write_fails w n = false) ->
  Forall decodable messages ->
  exists records w',
    mbox_loop bytes_decode parsedate_to_datetime message_hash
      messages out paths md w
    = (Done (mbox_paths out (next_uuid w) paths messages, md ++ records), w')
    /\ Forall2 (fun message record =>
                  extract_message_metadata bytes_decode parsedate_to_datetime
                    [] message = Ok record) messages records
    /\ next_uuid w' = next_uuid w + length (flat_map mbox_writes messages)
    /\ length (disk w')
       = length (disk w) + length (flat_map mbox_writes messages).
Proof.
  induction messages as [|message rest IH]; intros paths md w Hw Hall.
  - exists [], w. simpl. rewrite app_nil_r, !Nat.add_0_r. auto.
  - inversion Hall as [|? ? Hm Hrest]; subst.
    destruct (decodable_metadata message Hm) as (record & Hrec).
    cbn [mbox_loop mbox_paths].
    pose proof (mbox_parts_loop_spec message out (walk message) [] w Hw) as Hp.
    cbv zeta in Hp. fold (mbox_writes message) in Hp. rewrite Hp, Hrec.
    cbn [app].
    destruct (IH (descriptors out (message_id_of message_hash message)
                    (next_uuid w) (mbox_writes message))
                 (md ++ [record])
                 (world_after w out (message_id_of message_hash message)
                    (mbox_writes message)))
      as (records & w' & Hrun & Hrecs & Hn & Hd); [exact Hw | exact Hrest |].
    exists (record :: records), w'.
    rewrite Hrun, <- app_assoc.
    unfold world_after in Hn, Hd. cbn [next_uuid disk] in Hn, Hd.
    cbn [flat_map]. rewrite length_app.
    repeat split; auto; [lia|].
    rewrite Hd, length_app, length_rev, length_combine, !length_map,
      descriptors_length. lia.
Qed.



End MboxFiles.



(** ** The CSV writer: errors, other headers, and the parsers' records *)

Section CsvWriterMore.

Variable str_of_list : list string -> string.

Definition has_extra_key (headers : list string) (record : PyDict) : bool :=
  existsb (fun kv => negb (has_key headers (fst kv))) record.

Lemma has_extra_key_false headers record :
  has_extra_key headers record = false <-> keys_within headers record.
Proof.
  unfold has_extra_key, keys_within. split.
  - intros Hno key value Hin. apply has_key_In.
    destruct (has_key headers key) eqn:Hk; [reflexivity|].
    assert (Hex : existsb (fun kv => negb (has_key headers (fst kv))) record = true).
    { apply existsb_exists. exists (key, value). simpl. rewrite Hk. auto. }
    congruence.
  - intros Hkeys. apply not_true_is_false. intros Hex.
    apply existsb_exists in Hex. destruct Hex as ([k v] & Hin & Hneg).
    apply negb_true_iff in Hneg. apply Hkeys, has_key_In in Hin.
    simpl in Hneg. congruence.
Qed.

Lemma writerows_extra_key headers : forall records file,
  ~ Forall (keys_within headers) records ->
  writerows str_of_list headers records file = Raise ValueError.
Proof.
  induction records as [|record records IH]; intros file Hnot.
  - exfalso. apply Hnot. constructor.
  - cbn [writerows]. unfold dict_to_list. fold (has_extra_key headers record).
    destruct (has_extra_key headers record) eqn:Hx; [reflexivity|].
    apply has_extra_key_false in Hx. apply IH. intros Hall. apply Hnot.
    constructor; assumption.
Qed.


Lemma writer_reader_any_header (records : list PyDict)
  (headers : list string) :
  Forall (keys_within headers) records ->
  exists file,
    write_dict_to_csv str_of_list records headers = Ok file
    /\ Csv.reader file
       = Some (map (map list_ascii_of_string)
                 (headers :: map (row_strings str_of_list headers) records)).
Proof.
  intros Hall. unfold write_dict_to_csv.
  rewrite (writerows_ok str_of_list headers records _ Hall).
  eexists. split; [reflexivity|].
  set (table := map (map list_ascii_of_string)
                  (headers :: map (row_strings str_of_list headers) records)).
  etransitivity; [|exact (CsvFacts.reader_writerows table)].
  f_equal. unfold table. cbn [map concat]. f_equal.
  rewrite !map_map. reflexivity.
Qed.


Lemma metadata_prefix_keys bytes_decode parsedate_to_datetime : forall messages,
  Forall (keys_within csv_headers)
    (metadata_prefix bytes_decode parsedate_to_datetime messages).
Proof.
  induction messages as [|m ms IH]; [constructor|].
  cbn [metadata_prefix].
  destruct (extract_message_metadata bytes_decode parsedate_to_datetime [] m)
    as [r|e] eqn:Hr; [|constructor].
  constructor; [|exact IH].
  apply (metadata_keys_within _ _ _ _ _ Hr).
Qed.


End CsvWriterMore.

Module DemoCsvTest.

(** The header and rows of the test of the writer. *)
Definition headers : list string := ["col1"; "col2"; "col3"].
Definition data : list PyDict :=
  [[("col1", PStr "a"); ("col2", PStr "b"); ("col3", PStr "c")];
   [("col1", PStr "1"); ("col2", PStr "2"); ("col3", PStr "3")]].
Definition extra : list PyDict :=
  [[("col1", PStr "a"); ("col4", PStr "d")]].

Lemma data_keys : Forall (keys_within headers) data.
Proof.
  repeat (apply Forall_cons; [|try apply Forall_nil]);
    intros key value Hin; simpl in Hin |- *;
    repeat (destruct Hin as [[= <- _]|Hin]; [tauto|]); destruct Hin.
Qed.

Lemma extra_keys : ~ Forall (keys_within headers) extra.
Proof.
  intros H. inversion H as [|? ? Hk _]; subst.
  specialize (Hk "col4" (PStr "d") (or_intror (or_introl eq_refl))).
  simpl in Hk. repeat (destruct Hk as [Hk|Hk]; [discriminate Hk|]). exact Hk.
Qed.

End DemoCsvTest.




(** ** The timestamp normalizer is canonical *)

Module DateTimeCanonical.

Import DateTime.
Local Open Scope Z_scope.

(** The value built from a count of seconds, as [add_seconds] builds it. *)
Definition of_total (total us : Z) (tz : option Z) : result datetime :=
  let days := total / 86400 in
  let secs := total mod 86400 in
  if (0 <? days) && (days <=? MAXORDINAL) then
    let '(y, m, dd) := ord2ymd days in
    Ok (mkDT y m dd (secs / 3600) ((secs mod 3600) / 60) (secs mod 60) us tz)
  else Raise OverflowError.

Lemma add_seconds_of_total d delta :
  add_seconds d delta = of_total (wall_seconds d + delta) (microsecond d) (tzinfo d).
Proof. unfold add_seconds, of_total. cbv zeta. reflexivity. Qed.

(** The conversion to UTC depends on the instant only. *)
Lemma wall_seconds_replace u tz :
  wall_seconds (replace_tzinfo u tz) = wall_seconds u.
Proof. destruct u; reflexivity. Qed.

Lemma of_total_raises total us tz tz' e :
  of_total total us tz = Raise e -> of_total total us tz' = Raise e.
Proof.
  unfold of_total.
  destruct ((0 <? total / 86400) && (total / 86400 <=? MAXORDINAL)).
  - destruct (ord2ymd (total / 86400)) as [[y m] dd]. discriminate.
  - exact (fun H => H).
Qed.

Lemma astimezone_utc_of_total d off :
  astimezone_utc d off = of_total (wall_seconds d - off) (microsecond d) (Some 0).
Proof.
  unfold astimezone_utc. rewrite (add_seconds_of_total d (- off)).
  replace (wall_seconds d + - off) with (wall_seconds d - off) by lia.
  destruct (of_total (wall_seconds d - off) (microsecond d) (tzinfo d))
    as [u|e] eqn:Hu.
  - assert (Hu' : add_seconds d (- off) = Ok u).
    { rewrite add_seconds_of_total.
      replace (wall_seconds d + - off) with (wall_seconds d - off) by lia.
      exact Hu. }
    destruct (DateTimeFacts.add_seconds_ok d (- off) u Hu') as (Hw & _ & Hus).
    rewrite add_seconds_of_total, wall_seconds_replace, Hw.
    replace (microsecond (replace_tzinfo u (Some 0))) with (microsecond u)
      by (destruct u; reflexivity).
    replace (tzinfo (replace_tzinfo u (Some 0))) with (Some 0)
      by (destruct u; reflexivity).
    rewrite Hus. f_equal. lia.
  - symmetry. apply (of_total_raises _ _ _ _ _ Hu).
Qed.

End DateTimeCanonical.

(** X14.  Two Date headers that denote the same instant normalize to the
    same timestamp.  When both parse with an explicit offset, name the same
    second (local time minus offset) and carry the same microseconds, the
    normalizer returns the same result for both. *)
Theorem convert_timestamp_to_utc_canonical
  (parsedate_to_datetime : string -> result DateTime.datetime)
  (s1 s2 : string) (d1 d2 : DateTime.datetime) (off1 off2 : Z) :
  s1 <> "" -> s2 <> "" ->
  parsedate_to_datetime s1 = Ok d1 -> parsedate_to_datetime s2 = Ok d2 ->
  DateTime.tzinfo d1 = Some off1 -> DateTime.tzinfo d2 = Some off2 ->
  (DateTime.wall_seconds d1 - off1 = DateTime.wall_seconds d2 - off2)%Z ->
  DateTime.microsecond d1 = DateTime.microsecond d2 ->
  convert_timestamp_to_utc parsedate_to_datetime (Some s1)
  = convert_timestamp_to_utc parsedate_to_datetime (Some s2).
Proof.
  intros Hs1 Hs2 Hp1 Hp2 Ht1 Ht2 Hsame Hus.
  unfold convert_timestamp_to_utc.
  destruct s1 as [|c1 s1]; [congruence|]. destruct s2 as [|c2 s2]; [congruence|].
  cbn [PyStrOps.truthy negb]. rewrite Hp1, Hp2, Ht1, Ht2.
  rewrite !DateTimeCanonical.astimezone_utc_of_total, Hsame, Hus. reflexivity.
Qed.

Lemma convert_timestamp_to_utc_canonical_witness :
  convert_timestamp_to_utc Demo.parsedate_to_datetime
    (Some "Mon, 15 Jul 2024 10:30:00 -0400")
  = convert_timestamp_to_utc Demo.parsedate_to_datetime
      (Some "Mon, 15 Jul 2024 14:30:00 +0000").
Proof.
  apply (convert_timestamp_to_utc_canonical Demo.parsedate_to_datetime
           "Mon, 15 Jul 2024 10:30:00 -0400" "Mon, 15 Jul 2024 14:30:00 +0000"
           (DateTime.mkDT 2024 7 15 10 30 0 0 (Some (-14400)%Z))
           (DateTime.mkDT 2024 7 15 14 30 0 0 (Some 0%Z))
           (-14400)%Z 0%Z);
    try discriminate; try reflexivity.
Defined.

(** ** The worker task: [command] in [tasks.py] *)

Definition SUPPORTED_EXTENSIONS : list string := ["eml"; "mbox"].

(** [x in l] for strings. *)
Definition str_in (x : string) (l : list string) : bool :=
  existsb (String.eqb x) l.

(** An input file as the task receives it: the value under the key
    [extension], if the key is there, the path and the display name. *)
Record InputFile : Type := mkInput {
  in_extension : option string;
  in_path : string;
  in_display_name : string
}.

(** What the task can raise: an exception of the parsing code, the
    [KeyError] of a missing key, or the [RuntimeError] of a run without
    output. *)
Inductive task_exn : Type :=
| Propagated (e : exn)
| KeyError (key : string)
| RuntimeError.

Inductive task_result (A : Type) : Type :=
| Returned (a : A)
| Failed (e : task_exn).
Arguments Returned {A} a.
Arguments Failed {A} e.

Section Task.

Variable bytes_decode : string -> list ascii -> result string.
Variable parsedate_to_datetime : string -> result DateTime.datetime.
Variable message_hash : Message -> string.
Variable mailbox_mbox : string -> result (list Message).
Variable message_from_file : string -> result Message.
Variable str_of_list : list string -> string.

(** The rows written before the writer stops, and the exception that
    stopped it, if any. *)
Fixpoint writerows_upto (fieldnames : list string) (rowdicts : list PyDict)
  (file : Csv.text) : Csv.text * option exn :=
  match rowdicts with
  | [] => (file, None)
  | rowdict :: rest =>
      match dict_to_list fieldnames rowdict with
      | Raise e => (file, Some e)
      | Ok values =>
          writerows_upto fieldnames rest
            (file ++ writerow_values str_of_list values)
      end
  end.

(** [write_dict_to_csv] with its effect: the file at the path of
    [output_file] is opened for writing, the header and the rows are
    written, and [output_file] is returned. *)
Definition write_dict_to_csv_file (message_dict : list PyDict)
  (headers : list string) (output_file : OutputFile) (w : World)
  : result OutputFile * World :=
  if write_fails w (of_uuid output_file) then (Raise OSError, w)
  else
    let '(content, err) :=
      writerows_upto headers message_dict
        (Csv.writerow (map list_ascii_of_string headers)) in
    let w' := mkWorld (next_uuid w) ((of_path output_file, content) :: disk w)
                (write_fails w) in
    match err with
    | None => (Ok output_file, w')
    | Some e => (Raise e, w')
    end.

(** The branch [if input_extension == "mbox"]. *)
Definition process_mbox (input_file : InputFile) (output_file : OutputFile)
  (output_path : string) (output_files : list OutputFile) (w : World)
  : task_result (list OutputFile) * World :=
  match parse_mbox_to_dict_and_extract_attachments
          bytes_decode parsedate_to_datetime message_hash mailbox_mbox
          (in_path input_file) output_path w with
  | (Raise e, w1) => (Failed (Propagated e), w1)
  | (Ok (attachment_file_paths, mbox_dict), w1) =>
      match write_dict_to_csv_file mbox_dict csv_headers output_file w1 with
      | (Raise e, w2) => (Failed (Propagated e), w2)
      | (Ok mbox_csv, w2) =>
          (Returned (output_files ++ [mbox_csv] ++ attachment_file_paths), w2)
      end
  end.

(** The branch [if input_extension == "eml"]. *)
Definition process_eml (input_file : InputFile) (output_file : OutputFile)
  (output_path : string) (output_files : list OutputFile) (w : World)
  : task_result (list OutputFile) * World :=
  match parse_eml_to_dict_and_extract_attachments
          bytes_decode parsedate_to_datetime message_hash message_from_file
          (in_path input_file) output_path w with
  | (Raise e, w1) => (Failed (Propagated e), w1)
  | (Ok (attachment_file_paths, eml_dict), w1) =>
      match write_dict_to_csv_file [eml_dict] csv_headers output_file w1 with
      | (Raise e, w2) => (Failed (Propagated e), w2)
      | (Ok eml_csv, w2) =>
          (Returned (output_files ++ [eml_csv] ++ attachment_file_paths), w2)
      end
  end.

Definition extension_of (input_file : InputFile) : string :=
  PyStrOps.lower (match in_extension input_file with
                  | Some e => e
                  | None => EmptyString
                  end).

(** The loop [for input_file in input_files]. *)
Fixpoint command_loop (input_files : list InputFile) (output_path : string)
  (output_files : list OutputFile) (w : World)
  : task_result (list OutputFile) * World :=
  match input_files with
  | [] => (Returned output_files, w)
  | input_file :: rest =>
      let input_extension := extension_of input_file in
      if negb (str_in input_extension SUPPORTED_EXTENSIONS) then
        (* the message printed reads input_file['extension'] *)
        match in_extension input_file with
        | None => (Failed (KeyError "extension"), w)
        | Some _ => command_loop rest output_path output_files w
        end
      else
        let '(output_file, w1) :=
          create_output_file w output_path (in_display_name input_file)
            "csv" "csv" in
        let after_mbox :=
          if String.eqb input_extension "mbox"
          then process_mbox input_file output_file output_path output_files w1
          else (Returned output_files, w1) in
        match after_mbox with
        | (Failed e, w2) => (Failed e, w2)
        | (Returned output_files1, w2) =>
            let after_eml :=
              if String.eqb input_extension "eml"
              then process_eml input_file output_file output_path
                     output_files1 w2
              else (Returned output_files1, w2) in
            match after_eml with
            | (Failed e, w3) => (Failed e, w3)
            | (Returned output_files2, w3) =>
                command_loop rest output_path output_files2 w3
            end
        end
  end.

(** [command]: the output files of the task result, or what it raises. *)
Definition command (input_files : list InputFile) (output_path : string)
  (w : World) : task_result (list OutputFile) * World :=
  match command_loop input_files output_path [] w with
  | (Failed e, w') => (Failed e, w')
  | (Returned [], w') => (Failed RuntimeError, w')
  | (Returned output_files, w') => (Returned output_files, w')
  end.

End Task.

(** ** Properties of the worker task *)

Lemma lower_char_idem c :
  PyStrOps.lower_char (PyStrOps.lower_char c) = PyStrOps.lower_char c.
Proof.
  destruct (PyStrOps.is_upper c) eqn:Hu.
  - assert (Hl : PyStrOps.lower_char c = ascii_of_nat (nat_of_ascii c + 32))
      by (unfold PyStrOps.lower_char; rewrite Hu; reflexivity).
    rewrite Hl. unfold PyStrOps.is_upper in Hu.
    apply andb_true_iff in Hu. destruct Hu as [H1 H2].
    apply Nat.leb_le in H1. apply Nat.leb_le in H2.
    unfold PyStrOps.lower_char, PyStrOps.is_upper.
    rewrite nat_ascii_embedding by lia.
    replace (nat_of_ascii c + 32 <=? 90)%nat with false
      by (symmetry; apply Nat.leb_gt; lia).
    rewrite andb_false_r. reflexivity.
  - assert (Hl : PyStrOps.lower_char c = c)
      by (unfold PyStrOps.lower_char; rewrite Hu; reflexivity).
    rewrite !Hl. reflexivity.
Qed.

Lemma lower_idem s : PyStrOps.lower (PyStrOps.lower s) = PyStrOps.lower s.
Proof.
  unfold PyStrOps.lower. induction s as [|c s IH]; simpl; [reflexivity|].
  rewrite lower_char_idem, IH. reflexivity.
Qed.

Lemma str_in_supported x :
  str_in x SUPPORTED_EXTENSIONS = true -> x = "eml" \/ x = "mbox".
Proof.
  unfold str_in, SUPPORTED_EXTENSIONS. cbn [existsb].
  rewrite !orb_true_iff, !String.eqb_eq. intuition discriminate.
Qed.

Section TaskFacts.

Variable bytes_decode : string -> list ascii -> result string.
Variable parsedate_to_datetime : string -> result DateTime.datetime.
Variable message_hash : Message -> string.
Variable mailbox_mbox : string -> result (list Message).
Variable message_from_file : string -> result Message.
Variable str_of_list : list string -> string.

Let loop :=
  command_loop bytes_decode parsedate_to_datetime message_hash mailbox_mbox
    message_from_file str_of_list.
Let run :=
  command bytes_decode parsedate_to_datetime message_hash mailbox_mbox
    message_from_file str_of_list.

(** An input that carries an extension the task does not support. *)
Definition unsupported (input_file : InputFile) : Prop :=
  exists e, in_extension input_file = Some e
            /\ str_in (PyStrOps.lower e) SUPPORTED_EXTENSIONS = false.

Lemma loop_skips skipped : forall rest output_path output_files w,
  Forall unsupported skipped ->
  loop (skipped ++ rest) output_path output_files w
  = loop rest output_path output_files w.
Proof.
  induction skipped as [|i skipped IH]; intros rest out acc w Hall; [reflexivity|].
  inversion Hall as [|? ? (e & He & Hun) Hrest]; subst.
  unfold loop. cbn [app command_loop]. unfold extension_of.
  rewrite He, Hun. cbn [negb]. apply IH, Hrest.
Qed.

(** X15.  Without a supported input the task fails and writes nothing.
    When every input carries an extension other than eml and mbox, in any
    letter case, the task raises its RuntimeError and leaves the output
    directory as it was. *)
Theorem command_no_compatible_input (input_files : list InputFile)
  (output_path : string) (w : World) :
  Forall unsupported input_files ->
  command bytes_decode parsedate_to_datetime message_hash mailbox_mbox
    message_from_file str_of_list input_files output_path w
  = (Failed RuntimeError, w).
Proof.
  intros Hall. unfold command.
  pose proof (loop_skips input_files [] output_path [] w Hall) as H.
  rewrite app_nil_r in H. unfold loop in H. rewrite H. reflexivity.
Qed.

(** X16.  An input without an extension key stops the task.  When the
    inputs before it are all skipped as unsupported, an input that has no
    extension makes the task raise KeyError, with nothing written and the
    inputs after it left unprocessed. *)
Theorem command_missing_extension (skipped rest : list InputFile)
  (input_file : InputFile) (output_path : string) (w : World) :
  Forall unsupported skipped ->
  in_extension input_file = None ->
  command bytes_decode parsedate_to_datetime message_hash mailbox_mbox
    message_from_file str_of_list
    (skipped ++ input_file :: rest) output_path w
  = (Failed (KeyError "extension"), w).
Proof.
  intros Hall Hnone. unfold command.
  pose proof (loop_skips skipped (input_file :: rest) output_path [] w Hall) as H.
  unfold loop in H. rewrite H. cbn [command_loop]. unfold extension_of.
  rewrite Hnone. reflexivity.
Qed.

(** X17.  A message file that cannot be read stops the task.  When the
    inputs before it are all skipped as unsupported, an eml input whose
    file cannot be opened or parsed makes the task raise that exception;
    the CSV file allocated for it is never written and the inputs after it
    are left unprocessed. *)
Theorem command_unreadable_eml (skipped rest : list InputFile)
  (input_file : InputFile) (output_path : string) (w : World)
  (ext : string) (e : exn) :
  Forall unsupported skipped ->
  in_extension input_file = Some ext ->
  PyStrOps.lower ext = "eml" ->
  message_from_file (in_path input_file) = Raise e ->
  command bytes_decode parsedate_to_datetime message_hash mailbox_mbox
    message_from_file str_of_list
    (skipped ++ input_file :: rest) output_path w
  = (Failed (Propagated e), bump w).
Proof.
  intros Hall Hext Hlow Hread. unfold command.
  pose proof (loop_skips skipped (input_file :: rest) output_path [] w Hall) as H.
  unfold loop in H. rewrite H. cbn [command_loop]. unfold extension_of.
  rewrite Hext, Hlow. cbn [str_in SUPPORTED_EXTENSIONS existsb String.eqb
                           Ascii.eqb Bool.eqb orb andb negb].
  unfold create_output_file, process_eml,
    parse_eml_to_dict_and_extract_attachments.
  rewrite Hread. reflexivity.
Qed.

Lemma write_csv_file_returns records headers output_file w f w' :
  write_dict_to_csv_file str_of_list records headers output_file w = (Ok f, w') ->
  f = output_file.
Proof.
  unfold write_dict_to_csv_file.
  destruct (write_fails w (of_uuid output_file)); [discriminate|].
  destruct (writerows_upto _ _ _ _) as [content [err|]]; [discriminate|].
  intros [= <- _]. reflexivity.
Qed.

(** The outputs only grow, and what an input adds starts with its CSV. *)
Lemma loop_outputs output_path : forall input_files output_files w outputs w',
  loop input_files output_path output_files w = (Returned outputs, w') ->
  exists more,
    outputs = output_files ++ more
    /\ (more = []
        \/ (exists f tail, more = f :: tail
                           /\ of_extension f = "csv" /\ of_data_type f = "csv")
           /\ Exists (fun i => str_in (extension_of i) SUPPORTED_EXTENSIONS = true)
                input_files).
Proof.
  induction input_files as [|i rest IH]; intros acc w outputs w' Hrun.
  - injection Hrun as <- _. exists []. rewrite app_nil_r. auto.
  - unfold loop in Hrun. cbn [command_loop] in Hrun.
    destruct (str_in (extension_of i) SUPPORTED_EXTENSIONS) eqn:Hsup;
      cbn [negb] in Hrun.
    + assert (Hstep : forall acc1 w1,
                loop rest output_path (acc ++ acc1) w1 = (Returned outputs, w') ->
                (acc1 = [] \/ exists f tail, acc1 = f :: tail
                               /\ of_extension f = "csv" /\ of_data_type f = "csv") ->
                exists more,
                  outputs = acc ++ more
                  /\ (more = []
                      \/ (exists f tail, more = f :: tail
                            /\ of_extension f = "csv" /\ of_data_type f = "csv")
                         /\ Exists (fun i => str_in (extension_of i)
                                               SUPPORTED_EXTENSIONS = true)
                              (i :: rest))).
      { intros acc1 w1 Hrest Hacc1.
        destruct (IH _ _ _ _ Hrest) as (more & -> & Hmore).
        exists (acc1 ++ more). rewrite app_assoc. split; [reflexivity|].
        destruct Hacc1 as [-> | (f & tail & -> & Hcsv)].
        - destruct Hmore as [-> | (Hhead & Hex)]; [left; reflexivity|].
          right. split; [exact Hhead | apply Exists_cons_tl, Hex].
        - right. split; [|apply Exists_cons_hd, Hsup].
          exists f, (tail ++ more). auto. }
      destruct (create_output_file w output_path (in_display_name i) "csv" "csv")
        as [output_file w1] eqn:Hcreate.
      assert (Hcsv : of_extension output_file = "csv"
                     /\ of_data_type output_file = "csv").
      { unfold create_output_file in Hcreate. injection Hcreate as <- _. auto. }
      destruct (str_in_supported _ Hsup) as [Heml | Hmbox].
      * rewrite Heml in Hrun.
        cbn [String.eqb Ascii.eqb Bool.eqb andb] in Hrun.
        unfold process_eml in Hrun.
        destruct (parse_eml_to_dict_and_extract_attachments _ _ _ _ _ _ _)
          as [[[paths record]|e] w2]; [|discriminate].
        destruct (write_dict_to_csv_file _ _ _ _ _) as [[f|e] w3] eqn:Hw;
          [|discriminate].
        apply write_csv_file_returns in Hw. subst f.
        apply (Hstep _ _ Hrun). right. exists output_file, paths. tauto.
      * rewrite Hmbox in Hrun.
        cbn [String.eqb Ascii.eqb Bool.eqb andb] in Hrun.
        unfold process_mbox in Hrun.
        destruct (parse_mbox_to_dict_and_extract_attachments _ _ _ _ _ _ _)
          as [[[paths records]|e] w2]; [|discriminate].
        destruct (write_dict_to_csv_file _ _ _ _ _) as [[f|e] w3] eqn:Hw;
          [|discriminate].
        apply write_csv_file_returns in Hw. subst f.
        apply (Hstep _ _ Hrun). right. exists output_file, paths. tauto.
    + destruct (in_extension i); [|discriminate].
      destruct (IH _ _ _ _ Hrun) as (more & -> & Hmore).
      exists more. split; [reflexivity|].
      destruct Hmore as [-> | (Hhead & Hex)]; [left; reflexivity|].
      right. split; [exact Hhead | apply Exists_cons_tl, Hex].
Qed.

(** X18.  What the task returns starts with a CSV file.  Whenever the task
    returns, its list of output files is not empty, its first element is
    the descriptor of a CSV file, and at least one input had the extension
    eml or mbox. *)
Theorem command_returns_csv_first (input_files : list InputFile)
  (output_path : string) (w w' : World) (outputs : list OutputFile) :
  command bytes_decode parsedate_to_datetime message_hash mailbox_mbox
    message_from_file str_of_list input_files output_path w
  = (Returned outputs, w') ->
  (exists f tail, outputs = f :: tail
                  /\ of_extension f = "csv" /\ of_data_type f = "csv")
  /\ Exists (fun i => str_in (extension_of i) SUPPORTED_EXTENSIONS = true)
       input_files.
Proof.
  unfold command. intros Hrun.
  destruct (command_loop _ _ _ _ _ _ input_files output_path [] w)
    as [[outs|e] w1] eqn:Hloop; [|discriminate].
  destruct (loop_outputs output_path input_files [] w outs w1 Hloop)
    as (more & Hout & Hmore).
  cbn [app] in Hout. subst more.
  destruct outs as [|f tail]; [discriminate|].
  injection Hrun as <- _.
  destruct Hmore as [Hnil | Hgood]; [discriminate | exact Hgood].
Qed.

(** X19.  A mailbox that cannot be opened still gives a CSV file.  For an
    mbox input whose mailbox cannot be opened, when the CSV file can be
    written, the task does not fail: it returns the descriptor of the CSV
    file alone, and that file holds the header row and nothing else. *)
Theorem command_unopenable_mailbox (input_file : InputFile)
  (output_path : string) (w : World) (ext : string) (e : exn) :
  in_extension input_file = Some ext ->
  PyStrOps.lower ext = "mbox" ->
  mailbox_mbox (in_path input_file) = Raise e ->
  write_fails w (next_uuid w) = false ->
  let csv := fst (create_output_file w output_path
                    (in_display_name input_file) "csv" "csv") in
  let header := Csv.writerow (map list_ascii_of_string csv_headers) in
  command bytes_decode parsedate_to_datetime message_hash mailbox_mbox
    message_from_file str_of_list [input_file] output_path w
  = (Returned [csv],
     mkWorld (S (next_uuid w)) ((of_path csv, header) :: disk w) (write_fails w))
  /\ Csv.reader header = Some [map list_ascii_of_string csv_headers].
Proof.
  intros Hext Hlow Hopen Hw. cbv zeta. split.
  - unfold command. cbn [command_loop]. unfold extension_of.
    rewrite Hext, Hlow. cbn [str_in SUPPORTED_EXTENSIONS existsb String.eqb
                             Ascii.eqb Bool.eqb orb andb negb].
    unfold create_output_file. cbn [fst].
    unfold process_mbox.
    destruct (parse_mbox_shape bytes_decode parsedate_to_datetime message_hash
                mailbox_mbox (in_path input_file) output_path
                (mkWorld (S (next_uuid w)) (disk w) (write_fails w)))
      as (paths & records & w1 & Hrun & Hshape).
    rewrite Hopen in Hshape. destruct Hshape as (-> & -> & ->).
    rewrite Hrun. unfold write_dict_to_csv_file.
    cbn [write_fails of_uuid next_uuid disk of_path writerows_upto].
    rewrite Hw. reflexivity.
  - exact (CsvFacts.reader_writerows [map list_ascii_of_string csv_headers]).
Qed.

(** The input with its extension in lower case. *)
Definition lower_extension (input_file : InputFile) : InputFile :=
  mkInput (option_map PyStrOps.lower (in_extension input_file))
          (in_path input_file) (in_display_name input_file).

Lemma loop_lower_extension output_path : forall input_files output_files w,
  loop (map lower_extension input_files) output_path output_files w
  = loop input_files output_path output_files w.
Proof.
  induction input_files as [|i rest IH]; intros acc w; [reflexivity|].
  unfold loop in *. cbn [map command_loop].
  assert (Hext : extension_of (lower_extension i) = extension_of i).
  { unfold extension_of, lower_extension. cbn [in_extension].
    destruct (in_extension i); cbn [option_map]; [apply lower_idem | reflexivity]. }
  rewrite Hext.
  destruct (negb (str_in (extension_of i) SUPPORTED_EXTENSIONS)).
  - unfold lower_extension at 1. cbn [in_extension].
    destruct (in_extension i); cbn [option_map]; [apply IH | reflexivity].
  - unfold process_mbox, process_eml, lower_extension.
    cbn [in_path in_display_name].
    destruct (create_output_file w output_path (in_display_name i) "csv" "csv")
      as [output_file w1].
    destruct (String.eqb (extension_of i) "mbox").
    + destruct (parse_mbox_to_dict_and_extract_attachments _ _ _ _ _ _ _)
        as [[[paths records]|e] w2]; [|reflexivity].
      destruct (write_dict_to_csv_file _ _ _ _ _) as [[f|e] w3]; [|reflexivity].
      destruct (String.eqb (extension_of i) "eml"); [|apply IH].
      destruct (parse_eml_to_dict_and_extract_attachments _ _ _ _ _ _ _)
        as [[[paths' record]|e] w4]; [|reflexivity].
      destruct (write_dict_to_csv_file _ _ _ _ _) as [[f'|e] w5]; [|reflexivity].
      apply IH.
    + destruct (String.eqb (extension_of i) "eml"); [|apply IH].
      destruct (parse_eml_to_dict_and_extract_attachments _ _ _ _ _ _ _)
        as [[[paths' record]|e] w4]; [|reflexivity].
      destruct (write_dict_to_csv_file _ _ _ _ _) as [[f'|e] w5]; [|reflexivity].
      apply IH.
Qed.

(** X20.  The letter case of an extension does not matter.  Writing the
    extension of every input in lower case changes nothing in what the
    task returns, raises or writes: MBOX and Eml are handled as mbox and
    eml are. *)
Theorem command_extension_case (input_files : list InputFile)
  (output_path : string) (w : World) :
  command bytes_decode parsedate_to_datetime message_hash mailbox_mbox
    message_from_file str_of_list (map lower_extension input_files)
    output_path w
  = command bytes_decode parsedate_to_datetime message_hash mailbox_mbox
      message_from_file str_of_list input_files output_path w.
Proof.
  unfold command.
  pose proof (loop_lower_extension output_path input_files [] w) as H.
  unfold loop in H. rewrite H. reflexivity.
Qed.

End TaskFacts.

Module DemoTask.

Definition run :=
  command Demo.bytes_decode Demo.parsedate_to_datetime Demo.message_hash
    DemoMailbox.mailbox_mbox DemoEml.message_from_file DemoCsv.str_of_list.

Definition pdf : InputFile := mkInput (Some "PDF") "in/report.pdf" "report.pdf".
Definition txt : InputFile := mkInput (Some "txt") "in/notes.txt" "notes.txt".
Definition no_extension : InputFile := mkInput None "in/raw" "raw".
Definition missing_eml : InputFile := mkInput (Some "EML") "in/gone.eml" "gone.eml".
Definition lost_mbox : InputFile :=
  mkInput (Some "Mbox") "no_such_dir/x.mbox" "x.mbox".
Definition three : InputFile := mkInput (Some "mbox") "three.mbox" "three.mbox".

Lemma pdf_unsupported : unsupported pdf.
Proof. exists "PDF". split; reflexivity. Qed.

Lemma txt_unsupported : unsupported txt.
Proof. exists "txt". split; reflexivity. Qed.

End DemoTask.

Lemma command_no_compatible_input_witness :
  DemoTask.run [DemoTask.pdf; DemoTask.txt] "out" Demo.empty_world
  = (Failed RuntimeError, Demo.empty_world).
Proof.
  apply (command_no_compatible_input Demo.bytes_decode
           Demo.parsedate_to_datetime Demo.message_hash
           DemoMailbox.mailbox_mbox DemoEml.message_from_file
           DemoCsv.str_of_list [DemoTask.pdf; DemoTask.txt] "out"
           Demo.empty_world).
  apply Forall_cons; [exact DemoTask.pdf_unsupported|].
  apply Forall_cons; [exact DemoTask.txt_unsupported | apply Forall_nil].
Defined.

Lemma command_missing_extension_witness :
  DemoTask.run [DemoTask.pdf; DemoTask.no_extension; DemoTask.three] "out"
    Demo.empty_world
  = (Failed (KeyError "extension"), Demo.empty_world).
Proof.
  apply (command_missing_extension Demo.bytes_decode
           Demo.parsedate_to_datetime Demo.message_hash
           DemoMailbox.mailbox_mbox DemoEml.message_from_file
           DemoCsv.str_of_list [DemoTask.pdf] [DemoTask.three]
           DemoTask.no_extension "out" Demo.empty_world).
  - apply Forall_cons; [exact DemoTask.pdf_unsupported | apply Forall_nil].
  - reflexivity.
Defined.

Lemma command_unreadable_eml_witness :
  DemoTask.run [DemoTask.pdf; DemoTask.missing_eml; DemoTask.three] "out"
    Demo.empty_world
  = (Failed (Propagated OSError), bump Demo.empty_world).
Proof.
  apply (command_unreadable_eml Demo.bytes_decode
           Demo.parsedate_to_datetime Demo.message_hash
           DemoMailbox.mailbox_mbox DemoEml.message_from_file
           DemoCsv.str_of_list [DemoTask.pdf] [DemoTask.three]
           DemoTask.missing_eml "out" Demo.empty_world "EML" OSError).
  - apply Forall_cons; [exact DemoTask.pdf_unsupported | apply Forall_nil].
  - reflexivity.
  - reflexivity.
  - reflexivity.
Defined.

Lemma command_returns_csv_first_witness :
  (exists f tail,
     [mkOutputFile 0 "three.mbox" "csv" "csv" "out/0.csv";
      mkOutputFile 3 "attachment3._msg3@example.com_" "txt" "txt" "out/3.txt"]
     = f :: tail
     /\ of_extension f = "csv" /\ of_data_type f = "csv")
  /\ Exists (fun i => str_in (extension_of i) SUPPORTED_EXTENSIONS = true)
       [DemoTask.pdf; DemoTask.three].
Proof.
  refine (command_returns_csv_first Demo.bytes_decode
            Demo.parsedate_to_datetime Demo.message_hash
            DemoMailbox.mailbox_mbox DemoEml.message_from_file
            DemoCsv.str_of_list [DemoTask.pdf; DemoTask.three] "out"
            Demo.empty_world
            (snd (DemoTask.run [DemoTask.pdf; DemoTask.three] "out"
                    Demo.empty_world))
            _ _).
  vm_compute. reflexivity.
Defined.

Lemma command_unopenable_mailbox_witness :
  DemoTask.run [DemoTask.lost_mbox] "out" Demo.empty_world
  = (Returned [mkOutputFile 0 "x.mbox" "csv" "csv" "out/0.csv"],
     mkWorld 1
       [("out/0.csv", Csv.writerow (map list_ascii_of_string csv_headers))]
       (fun _ => false))
  /\ Csv.reader (Csv.writerow (map list_ascii_of_string csv_headers))
     = Some [map list_ascii_of_string csv_headers].
Proof.
  exact (command_unopenable_mailbox Demo.bytes_decode
           Demo.parsedate_to_datetime Demo.message_hash
           DemoMailbox.mailbox_mbox DemoEml.message_from_file
           DemoCsv.str_of_list DemoTask.lost_mbox "out" Demo.empty_world
           "Mbox" OSError eq_refl eq_refl eq_refl eq_refl).
Defined.
